(** * XTIRPA Configurator: scene store, viewport click wiring, asset browser
      and render bridge

    A shallow embedding of the state logic of the configurator:
    - [App.tsx] (the shell: object store, selection, tool mode, render call),
    - [components/Viewer3D.tsx] (scene graph, click handlers, measurement),
    - [components/AssetBrowser.tsx] (part catalog, assemble, upload),
    - [components/Toolbar.tsx] (the Generate Render control),
    - [types.ts].

    JavaScript numbers are IEEE 754 binary64 values and are modelled by
    Rocq's primitive floats, which are the same format with the same
    round-to-nearest-even operations.  React state is one record, [World];
    a handler is a function [World -> World] that applies, in program order,
    the state updates the handler enqueues.  Values a handler reads from its
    render closure are read from an explicit snapshot argument. *)

From Stdlib Require Import Bool List Finite String Ascii ZArith Lia.
From Stdlib Require Import Floats DecimalString DecimalPos DecimalZ.
From Stdlib Require Uint63.
Import ListNotations.

Local Open Scope string_scope.
Local Open Scope list_scope.

(* ------------------------------------------------------------------ *)
(** ** JavaScript values *)

(** [number]. *)
Definition number := float.

(** [[number, number, number]]. *)
Definition Vec3 : Type := number * number * number.

(** A thrown value (only ever logged). *)
Definition JsError := string.

(** The completion of a call that may throw. *)
Inductive Completion (A : Type) : Type :=
| Normal (a : A)
| Throw (e : JsError).
Arguments Normal {A} a.
Arguments Throw {A} e.

(** [String(n)] for an integral number [n] below 1e21: plain decimal digits,
    with a leading minus sign for a negative one. *)
Definition jsString (z : Z) : string :=
  NilZero.string_of_int (Z.to_int z).

(** Truthiness of a string: only the empty string is falsy. *)
Definition truthy (s : string) : bool :=
  match s with
  | EmptyString => false
  | String _ _ => true
  end.

(** [a || d] where [a] is an optional string property. *)
Definition orString (a : option string) (d : string) : string :=
  match a with
  | Some s => if truthy s then s else d
  | None => d
  end.

(** [a || d] where [a] is an optional property whose values are all truthy
    (an array, or a non-empty string literal type). *)
Definition orElse {A : Type} (a : option A) (d : A) : A :=
  match a with
  | Some v => v
  | None => d
  end.

(** [a?.b] / reading an optional property of an optional property. *)
Definition joinOpt {A : Type} (a : option (option A)) : option A :=
  match a with
  | Some v => v
  | None => None
  end.

(** [s === t] on [string | null]. *)
Definition optStringEqb (a b : option string) : bool :=
  match a, b with
  | Some s, Some t => String.eqb s t
  | None, None => true
  | _, _ => false
  end.

(* ------------------------------------------------------------------ *)
(** ** three.js [Vector3]

    three.js is an external library; the three methods the viewer calls are
    modelled from its documented definitions:
    [distanceToSquared(v)] is [dx*dx + dy*dy + dz*dz] with
    [dx = this.x - v.x] (and likewise [dy], [dz]), and [distanceTo(v)] is
    [Math.sqrt(this.distanceToSquared(v))]. *)

Module Vector3.
Record t : Type := mk { x : number; y : number; z : number }.

Definition clone (v : t) : t := mk (x v) (y v) (z v).

Definition toArray (v : t) : Vec3 := (x v, y v, z v).

Definition distanceToSquared (this v : t) : number :=
  let dx := (x this - x v)%float in
  let dy := (y this - y v)%float in
  let dz := (z this - z v)%float in
  (dx * dx + dy * dy + dz * dz)%float.

Definition distanceTo (this v : t) : number :=
  PrimFloat.sqrt (distanceToSquared this v).
End Vector3.

(** The Euclidean norm of [q - p], written out on the components of the two
    3-tuples a [Measurement] stores, in binary64 arithmetic. *)
Definition euclideanNorm (p q : Vec3) : number :=
  let '(px, py, pz) := p in
  let '(qx, qy, qz) := q in
  PrimFloat.sqrt ((qx - px) * (qx - px) + (qy - py) * (qy - py)
                  + (qz - pz) * (qz - pz))%float.

(* ------------------------------------------------------------------ *)
(** ** [types.ts] *)

Inductive ObjectType : Type := primitive | uploaded.

Inductive GeometryType : Type := box | sphere | cylinder.

Module SceneObject.
Record t : Type := mk {
  id : string;
  name : string;
  type : ObjectType;
  geometryType : option GeometryType;
  fileUrl : option string;
  position : Vec3;
  rotation : Vec3;
  scale : Vec3;
  color : string
}.
End SceneObject.

(** [Partial<SceneObject>]: [None] is an absent key.  The two properties that
    are optional in [SceneObject] itself may also be present with the value
    [undefined], hence the nested option. *)
Module PartialSceneObject.
Record t : Type := mk {
  id : option string;
  name : option string;
  type : option ObjectType;
  geometryType : option (option GeometryType);
  fileUrl : option (option string);
  position : option Vec3;
  rotation : option Vec3;
  scale : option Vec3;
  color : option string
}.

(** [{}] *)
Definition empty : t :=
  mk None None None None None None None None None.
End PartialSceneObject.

Module Measurement.
Record t : Type := mk {
  id : string;
  startPoint : Vec3;
  endPoint : Vec3;
  distance : number
}.
End Measurement.

Inductive DropboxKind : Type := folder | file.

Module DropboxFile.
Record t : Type := mk {
  id : string;
  name : string;
  type : DropboxKind;
  geometryType : option GeometryType;
  size : option string
}.
End DropboxFile.

Inductive ToolMode : Type := SELECT | MOVE | ROTATE | SCALE | MEASURE.

Definition ToolMode_eqb (a b : ToolMode) : bool :=
  match a, b with
  | SELECT, SELECT | MOVE, MOVE | ROTATE, ROTATE
  | SCALE, SCALE | MEASURE, MEASURE => true
  | _, _ => false
  end.

Module WatermarkConfig.
Record t : Type := mk {
  text : string;
  enabled : bool;
  opacity : number
}.
End WatermarkConfig.

(* ------------------------------------------------------------------ *)
(** ** The browser environment *)

(** What one call of [handleAddObject] or [handleCanvasClick] reads from the
    clock and the random source: [Date.now()] and the text
    [Math.random().toString(36)]. *)
Record Entropy : Type := mkEntropy {
  now : Z;
  random36 : string
}.

(** A [File] of a file input. *)
Record File : Type := mkFile { fileName : string }.

(** [HTMLCanvasElement], by what [toDataURL('image/png')] does on it. *)
Record HTMLCanvasElement : Type := mkCanvas {
  toDataURL : Completion string
}.

(** The arguments of one [generateRendering] call. *)
Record RenderRequest : Type := mkRequest {
  imageData : string;
  prompt : string;
  watermarkText : string
}.

(** How the promise of [generateRendering] settles.  The function itself
    ([services/geminiService]) is not among the sources read here; the shell
    depends on it only through this outcome. *)
Inductive Outcome : Type :=
| Fulfilled (result : string)
| Rejected (e : JsError).

(* ------------------------------------------------------------------ *)
(** ** State

    The [useState] cells of [App], [AssetBrowser] and [Viewer3D], the canvas
    ref, and what the handlers do to the browser: alerts shown, errors
    logged, object URLs allocated, render calls not yet settled. *)

Record World : Type := mkWorld {
  (* App *)
  objects : list SceneObject.t;
  selectedId : option string;
  mode : ToolMode;
  background : string;
  measurements : list Measurement.t;
  watermark : WatermarkConfig.t;
  isRendering : bool;
  renderResult : option string;
  canvasRef : option HTMLCanvasElement;
  (* AssetBrowser: a Set in insertion order *)
  selectedParts : list string;
  (* Viewer3D *)
  measuringStart : option Vector3.t;
  (* browser *)
  alerts : list string;
  consoleErrors : list JsError;
  objectURLs : list (string * File);
  inFlight : list RenderRequest
}.

(** The initial state of the three components. *)
Definition initialWorld : World :=
  mkWorld [] None SELECT "#1a1a1d" []
          (WatermarkConfig.mk "DRAFT" true 0.5%float) false None None
          [] None [] [] [] [].

Definition setObjects (f : list SceneObject.t -> list SceneObject.t) (w : World) : World :=
  mkWorld (f (objects w)) (selectedId w) (mode w) (background w)
          (measurements w) (watermark w) (isRendering w) (renderResult w)
          (canvasRef w) (selectedParts w) (measuringStart w) (alerts w)
          (consoleErrors w) (objectURLs w) (inFlight w).

Definition setSelectedId (v : option string) (w : World) : World :=
  mkWorld (objects w) v (mode w) (background w)
          (measurements w) (watermark w) (isRendering w) (renderResult w)
          (canvasRef w) (selectedParts w) (measuringStart w) (alerts w)
          (consoleErrors w) (objectURLs w) (inFlight w).

Definition setMode (v : ToolMode) (w : World) : World :=
  mkWorld (objects w) (selectedId w) v (background w)
          (measurements w) (watermark w) (isRendering w) (renderResult w)
          (canvasRef w) (selectedParts w) (measuringStart w) (alerts w)
          (consoleErrors w) (objectURLs w) (inFlight w).

Definition setMeasurements (f : list Measurement.t -> list Measurement.t) (w : World) : World :=
  mkWorld (objects w) (selectedId w) (mode w) (background w)
          (f (measurements w)) (watermark w) (isRendering w) (renderResult w)
          (canvasRef w) (selectedParts w) (measuringStart w) (alerts w)
          (consoleErrors w) (objectURLs w) (inFlight w).

Definition setIsRendering (v : bool) (w : World) : World :=
  mkWorld (objects w) (selectedId w) (mode w) (background w)
          (measurements w) (watermark w) v (renderResult w)
          (canvasRef w) (selectedParts w) (measuringStart w) (alerts w)
          (consoleErrors w) (objectURLs w) (inFlight w).

Definition setRenderResult (v : option string) (w : World) : World :=
  mkWorld (objects w) (selectedId w) (mode w) (background w)
          (measurements w) (watermark w) (isRendering w) v
          (canvasRef w) (selectedParts w) (measuringStart w) (alerts w)
          (consoleErrors w) (objectURLs w) (inFlight w).

Definition setSelectedParts (v : list string) (w : World) : World :=
  mkWorld (objects w) (selectedId w) (mode w) (background w)
          (measurements w) (watermark w) (isRendering w) (renderResult w)
          (canvasRef w) v (measuringStart w) (alerts w)
          (consoleErrors w) (objectURLs w) (inFlight w).

Definition setMeasuringStart (v : option Vector3.t) (w : World) : World :=
  mkWorld (objects w) (selectedId w) (mode w) (background w)
          (measurements w) (watermark w) (isRendering w) (renderResult w)
          (canvasRef w) (selectedParts w) v (alerts w)
          (consoleErrors w) (objectURLs w) (inFlight w).

(** [alert(msg)] *)
Definition alert (msg : string) (w : World) : World :=
  mkWorld (objects w) (selectedId w) (mode w) (background w)
          (measurements w) (watermark w) (isRendering w) (renderResult w)
          (canvasRef w) (selectedParts w) (measuringStart w) (alerts w ++ [msg])
          (consoleErrors w) (objectURLs w) (inFlight w).

(** [console.error(e)] *)
Definition console_error (e : JsError) (w : World) : World :=
  mkWorld (objects w) (selectedId w) (mode w) (background w)
          (measurements w) (watermark w) (isRendering w) (renderResult w)
          (canvasRef w) (selectedParts w) (measuringStart w) (alerts w)
          (consoleErrors w ++ [e]) (objectURLs w) (inFlight w).

(** [URL.createObjectURL(file)], returning [url]: the browser keeps the pair
    until it is revoked (never, here). *)
Definition createObjectURL (url : string) (f : File) (w : World) : World :=
  mkWorld (objects w) (selectedId w) (mode w) (background w)
          (measurements w) (watermark w) (isRendering w) (renderResult w)
          (canvasRef w) (selectedParts w) (measuringStart w) (alerts w)
          (consoleErrors w) (objectURLs w ++ [(url, f)]) (inFlight w).

(** The ref callback of [<Canvas ref={canvasRef}>] when the canvas mounts. *)
Definition mountCanvas (c : HTMLCanvasElement) (w : World) : World :=
  mkWorld (objects w) (selectedId w) (mode w) (background w)
          (measurements w) (watermark w) (isRendering w) (renderResult w)
          (Some c) (selectedParts w) (measuringStart w) (alerts w)
          (consoleErrors w) (objectURLs w) (inFlight w).

Definition setInFlight (f : list RenderRequest -> list RenderRequest) (w : World) : World :=
  mkWorld (objects w) (selectedId w) (mode w) (background w)
          (measurements w) (watermark w) (isRendering w) (renderResult w)
          (canvasRef w) (selectedParts w) (measuringStart w) (alerts w)
          (consoleErrors w) (objectURLs w) (f (inFlight w)).

(* ------------------------------------------------------------------ *)
(** ** [App.tsx]: the shell's handlers *)

(** [`${Date.now()}-${Math.random().toString(36).substr(2, 9)}`] *)
Definition uniqueId (e : Entropy) : string :=
  jsString (now e) ++ "-" ++ substring 2 9 (random36 e).

(** The object literal [newObj] of [handleAddObject]. *)
Definition newObj (e : Entropy) (objData : PartialSceneObject.t) : SceneObject.t :=
  SceneObject.mk
    (uniqueId e)
    (orString (PartialSceneObject.name objData) "New Object")
    (orElse (PartialSceneObject.type objData) primitive)
    (joinOpt (PartialSceneObject.geometryType objData))
    (joinOpt (PartialSceneObject.fileUrl objData))
    (orElse (PartialSceneObject.position objData) (0, 0, 0)%float)
    (orElse (PartialSceneObject.rotation objData) (0, 0, 0)%float)
    (orElse (PartialSceneObject.scale objData) (1, 1, 1)%float)
    (orString (PartialSceneObject.color objData) "#ffffff").

Definition handleAddObject (e : Entropy) (objData : PartialSceneObject.t)
  (w : World) : World :=
  let o := newObj e objData in
  setMode MOVE
    (setSelectedId (Some (SceneObject.id o))
       (setObjects (fun prev => prev ++ [o]) w)).

(** [{ ...o, ...updates }] *)
Definition spread (o : SceneObject.t) (updates : PartialSceneObject.t) : SceneObject.t :=
  SceneObject.mk
    (orElse (PartialSceneObject.id updates) (SceneObject.id o))
    (orElse (PartialSceneObject.name updates) (SceneObject.name o))
    (orElse (PartialSceneObject.type updates) (SceneObject.type o))
    (orElse (PartialSceneObject.geometryType updates) (SceneObject.geometryType o))
    (orElse (PartialSceneObject.fileUrl updates) (SceneObject.fileUrl o))
    (orElse (PartialSceneObject.position updates) (SceneObject.position o))
    (orElse (PartialSceneObject.rotation updates) (SceneObject.rotation o))
    (orElse (PartialSceneObject.scale updates) (SceneObject.scale o))
    (orElse (PartialSceneObject.color updates) (SceneObject.color o)).

Definition handleUpdateObject (id : string) (updates : PartialSceneObject.t)
  (w : World) : World :=
  setObjects
    (fun prev =>
       map (fun o => if String.eqb (SceneObject.id o) id then spread o updates else o)
           prev)
    w.

(** [onAddMeasurement] as [App] passes it to the viewer. *)
Definition onAddMeasurement (m : Measurement.t) (w : World) : World :=
  setMeasurements (fun prev => prev ++ [m]) w.

(** The "Clear All" button of the measurement list. *)
Definition clearAll (w : World) : World :=
  setMeasurements (fun _ => []) w.

(** The part of [handleGenerateRender] after the [await]: the [try] body's
    tail on fulfilment, the [catch] block on rejection, then [finally]. *)
Definition resumeGenerateRender (o : Outcome) (w : World) : World :=
  let w1 :=
    match o with
    | Fulfilled result => setRenderResult (Some result) w
    | Rejected e =>
        console_error e (alert "Rendering failed. Please try again." w)
    end in
  setIsRendering false w1.

(** [handleGenerateRender] up to its only suspension point.  The second
    component is the request the handler now awaits, if it got that far. *)
Definition handleGenerateRender (snap w : World) : World * option RenderRequest :=
  match canvasRef w with
  | None => (w, None)
  | Some canvas =>
      let w1 := setIsRendering true w in
      match toDataURL canvas with
      | Throw e =>
          (setIsRendering false
             (console_error e (alert "Rendering failed. Please try again." w1)),
           None)
      | Normal dataUrl =>
          let wmText :=
            if WatermarkConfig.enabled (watermark snap)
            then WatermarkConfig.text (watermark snap) else "" in
          let req := mkRequest dataUrl
                       "A high quality studio rendering of this assembly." wmText in
          (setInFlight (fun rs => rs ++ [req]) w1, Some req)
      end
  end.

(** The promise of the [i]-th outstanding call settles and its handler
    resumes. *)
Definition settle (i : nat) (o : Outcome) (w : World) : World :=
  match nth_error (inFlight w) i with
  | None => w
  | Some _ =>
      resumeGenerateRender o
        (setInFlight (fun rs => firstn i rs ++ skipn (S i) rs) w)
  end.

(** [(isRendering || renderResult) && <div className="fixed inset-0 ...">]:
    whether the full-screen modal is rendered. *)
Definition modalShown (w : World) : bool :=
  isRendering w ||
  match renderResult w with
  | Some r => truthy r
  | None => false
  end.

(* ------------------------------------------------------------------ *)
(** ** [components/Toolbar.tsx] *)

(** A rendered [<button>]: its [disabled] attribute.  Its [onClick] is the
    [onRender] prop, that is [handleGenerateRender]. *)
Record Button : Type := mkButton { disabled : bool }.

(** The "Generate Render" button: [<button onClick={onRender} className=...>].
    The element has no [disabled] attribute, and the toolbar's props do not
    include the rendering flag. *)
Definition generateRenderButton (mode_ : ToolMode) (watermark_ : WatermarkConfig.t) : Button :=
  mkButton false.

(** How a click event comes to the button: a pointer click at its place on
    the page, or the keyboard while it has the focus. *)
Inductive Activation : Type := Pointer | Keyboard.

(** The user activates the "Generate Render" button.  The modal of [App] is
    a [fixed inset-0 z-50] layer over the whole page, so while it is shown a
    pointer click lands on it and not on the toolbar; the keyboard is not
    affected.  A disabled button fires no [onClick]. *)
Definition activateGenerateRender (via : Activation) (w : World) : World :=
  if disabled (generateRenderButton (mode w) (watermark w)) then w
  else
    match via with
    | Pointer => if modalShown w then w else fst (handleGenerateRender w w)
    | Keyboard => fst (handleGenerateRender w w)
    end.

(* ------------------------------------------------------------------ *)
(** ** [components/AssetBrowser.tsx] *)

Definition SYSTEM_PARTS : list DropboxFile.t :=
  [ DropboxFile.mk "p1" "Aluminium Extrusion 40x40" file (Some box) (Some "2.1MB");
    DropboxFile.mk "p2" "L-Bracket Joint" file (Some box) (Some "0.4MB");
    DropboxFile.mk "p3" "Heavy Duty Caster" file (Some sphere) (Some "1.2MB");
    DropboxFile.mk "p4" "Mounting Plate" file (Some box) (Some "0.8MB");
    DropboxFile.mk "p5" "Hydraulic Piston" file (Some cylinder) (Some "1.5MB");
    DropboxFile.mk "p6" "Control Panel Housing" file (Some box) (Some "3.2MB");
    DropboxFile.mk "p7" "Safety Guard Panel" file (Some box) (Some "1.1MB");
    DropboxFile.mk "p8" "M8 Fastener Kit" file (Some sphere) (Some "0.1MB") ].

(** [newSelected.has(id)] *)
Definition has (s : list string) (id : string) : bool :=
  existsb (String.eqb id) s.

Definition togglePart (id : string) (snap w : World) : World :=
  let newSelected :=
    if has (selectedParts snap) id
    then filter (fun x => negb (String.eqb x id)) (selectedParts snap)
    else selectedParts snap ++ [id] in
  setSelectedParts newSelected w.

(** [SYSTEM_PARTS.find(p => p.id === id)] *)
Definition findPart (id : string) : option DropboxFile.t :=
  find (fun p => String.eqb (DropboxFile.id p) id) SYSTEM_PARTS.

(** The argument of [onAddObject] in [handleAssemble]. *)
Definition assembleData (part : DropboxFile.t) (offset : number) : PartialSceneObject.t :=
  PartialSceneObject.mk None
    (Some (DropboxFile.name part))
    (Some primitive)
    (Some (DropboxFile.geometryType part))
    None
    (Some (offset, 0, 0)%float)
    None None
    (Some "#e0e0e0").

(** The body of [selectedParts.forEach]: the loop carries [index], the number
    of [onAddObject] calls made so far (the [k]-th call reads [draws k]) and
    the pending state. *)
Definition assembleStep (draws : nat -> Entropy)
  (acc : number * nat * World) (id : string) : number * nat * World :=
  let '(index, calls, w) := acc in
  match findPart id with
  | Some part =>
      let offset := (index * 1.5)%float in
      ((index + 1)%float, S calls,
       handleAddObject (draws calls) (assembleData part offset) w)
  | None => acc
  end.

Definition handleAssemble (draws : nat -> Entropy) (snap w : World) : World :=
  let '(_, _, w') :=
    fold_left (assembleStep draws) (selectedParts snap) (0%float, 0, w) in
  setSelectedParts [] w'.

(** The argument of [onAddObject] in [handleUpload]. *)
Definition uploadData (f : File) (url : string) : PartialSceneObject.t :=
  PartialSceneObject.mk None
    (Some (fileName f))
    (Some uploaded)
    None
    (Some (Some url))
    (Some (0, 2, 0)%float)
    None None
    (Some "#cccccc").

(** [handleUpload]: [files] is [e.target.files] ([FileList | null]); [url] is
    what [URL.createObjectURL] returns if it is called. *)
Definition handleUpload (e : Entropy) (url : string) (files : option (list File))
  (w : World) : World :=
  let file_ := match files with
               | Some fl => nth_error fl 0
               | None => None
               end in
  match file_ with
  | None => w
  | Some f =>
      handleAddObject e (uploadData f url) (createObjectURL url f w)
  end.

(* ------------------------------------------------------------------ *)
(** ** [components/Viewer3D.tsx] *)

(** *** Click handlers

    ([MeasurementController], also defined in the file, is rendered nowhere
    and takes no part in the wiring.) *)

(** [ThreeEvent<MouseEvent>]: the intersection point. *)
Record ThreeEvent : Type := mkEvent { point : Vector3.t }.

(** A handler's effect on the pending state, and whether it called
    [e.stopPropagation()]. *)
Definition Handled : Type := World * bool.

(** [handleCanvasClick]; [clock] is what [Date.now()] returns in it. *)
Definition handleCanvasClick (clock : Z) (e : ThreeEvent) (snap w : World) : Handled :=
  match mode snap with
  | MEASURE =>
      let p := point e in
      match measuringStart snap with
      | None => (setMeasuringStart (Some (Vector3.clone p)) w, true)
      | Some start =>
          let newMeasure :=
            Measurement.mk (jsString clock)
              (Vector3.toArray start)
              (Vector3.toArray p)
              (Vector3.distanceTo start p) in
          (setMeasuringStart None (onAddMeasurement newMeasure w), true)
      end
  | SELECT => (setSelectedId None w, false)
  | _ => (w, false)
  end.

(** The [onSelect] prop [Viewer3D] gives the [SceneItem] of object [objId]. *)
Definition sceneItemOnSelect (objId : string) (snap w : World) : World :=
  match mode snap with
  | MEASURE => w
  | _ => setSelectedId (Some objId) w
  end.

(** The [onClick] of a [SceneItem]'s mesh:
    [e.stopPropagation(); onSelect();]. *)
Definition sceneItemOnClick (objId : string) (snap w : World) : Handled :=
  (sceneItemOnSelect objId snap w, true).

(** The [onClick] of the invisible mesh inside [Stage], and (the same text)
    of the empty group after it. *)
Definition measureOnClick (clock : Z) (e : ThreeEvent) (snap w : World) : Handled :=
  match mode snap with
  | MEASURE => (fst (handleCanvasClick clock e snap w), true)
  | _ => (w, false)
  end.

(** The [onClick] of [<Canvas>]. *)
Definition canvasOnClick (snap w : World) : World :=
  match mode snap with
  | SELECT => setSelectedId None w
  | _ => w
  end.

(** The three [onClick] props attached to objects of the scene graph. *)
Inductive ClickHandler : Type :=
| SceneItemClick (objId : string)
| InvisibleMeshClick
| MeasureGroupClick.

Definition runHandler (clock : Z) (h : ClickHandler) (e : ThreeEvent)
  (snap w : World) : Handled :=
  match h with
  | SceneItemClick objId => sceneItemOnClick objId snap w
  | InvisibleMeshClick => measureOnClick clock e snap w
  | MeasureGroupClick => measureOnClick clock e snap w
  end.

(** *** The rendered scene graph *)

(** What a ray can be tested against.  [emptyBufferGeometry] is the geometry
    of a [<mesh>] rendered without a geometry child: it has no vertices. *)
Inductive Geometry : Type :=
| boxGeometry
| sphereGeometry
| cylinderGeometry
| lineGeometry
| spriteGeometry
| gridGeometry
| gizmoGeometry
| emptyBufferGeometry.

Definition hasVertices (g : Geometry) : bool :=
  match g with
  | emptyBufferGeometry => false
  | _ => true
  end.

(** A node of the three.js scene graph: its geometry (none for a group), its
    [onClick] prop, its children. *)
#[local] Set Warnings "-register-all".
Inductive Object3D : Type :=
| Node (geometry : option Geometry) (onClick : option ClickHandler)
       (children : list Object3D).

Definition geometryOf (n : Object3D) : option Geometry :=
  match n with Node g _ _ => g end.

Definition onClickOf (n : Object3D) : option ClickHandler :=
  match n with Node _ h _ => h end.

Definition childrenOf (n : Object3D) : list Object3D :=
  match n with Node _ _ c => c end.

(** A ray intersects a node only through the vertices of its geometry. *)
Definition raycastable (n : Object3D) : bool :=
  match geometryOf n with
  | Some g => hasVertices g
  | None => false
  end.

(** The geometry element [SceneItem] picks for an object. *)
Definition sceneItemGeometry (obj : SceneObject.t) : Geometry :=
  match SceneObject.type obj with
  | primitive =>
      match SceneObject.geometryType obj with
      | Some sphere => sphereGeometry
      | Some cylinder => cylinderGeometry
      | _ => boxGeometry
      end
  | uploaded => boxGeometry
  end.

(** [<SceneItem>]: the transform gizmo when the object is selected in a
    transform mode, then the object's mesh. *)
Definition SceneItem (obj : SceneObject.t) (isSelected : bool) (mode_ : ToolMode)
  : list Object3D :=
  (if isSelected && negb (ToolMode_eqb mode_ SELECT)
      && negb (ToolMode_eqb mode_ MEASURE)
   then [Node (Some gizmoGeometry) None []]
   else [])
  ++ [Node (Some (sceneItemGeometry obj))
           (Some (SceneItemClick (SceneObject.id obj))) []].

(** [<MeasurementLines>]: per measurement a group of a line, two end point
    spheres and a label sprite, none with a handler. *)
Definition MeasurementLines (ms : list Measurement.t) : list Object3D :=
  map (fun _ =>
         Node None None
           [ Node (Some lineGeometry) None [];
             Node (Some sphereGeometry) None [];
             Node (Some sphereGeometry) None [];
             Node (Some spriteGeometry) None [] ])
      ms.

(** The children of [<Stage>]: the scene items, then the invisible mesh meant
    to catch measurement clicks, rendered without a geometry child. *)
Definition stageChildren (w : World) : list Object3D :=
  flat_map
    (fun obj =>
       SceneItem obj
         (optStringEqb (Some (SceneObject.id obj)) (selectedId w))
         (mode w))
    (objects w)
  ++ [Node (Some emptyBufferGeometry) (Some InvisibleMeshClick) []].

(** The children of [<Canvas>] that are objects of the scene, in source
    order: [Stage], the group meant to handle measurement clicks (it has no
    children), the measurement lines, the start point marker, the grid. *)
Definition scene (w : World) : list Object3D :=
  [ Node None None (stageChildren w);
    Node None (Some MeasureGroupClick) [] ]
  ++ MeasurementLines (measurements w)
  ++ (match measuringStart w with
      | Some _ => [Node (Some sphereGeometry) None []]
      | None => []
      end)
  ++ [Node (Some gridGeometry) None []].

(** *** Event delivery (react-three-fiber)

    react-three-fiber is an external library; its delivery of a click is
    modelled from its documented behaviour: the pointer ray is intersected
    with the scene, the hits are ordered nearest first, and each hit is
    offered to the hit object and then to its ancestors, calling the
    [onClick] of those that have one, until a handler calls
    [stopPropagation]. *)

(** One intersection of the pointer ray: the child indices leading from the
    scene root to the object hit, and the point hit. *)
Record Intersection : Type := mkHit {
  hitPath : list nat;
  hitPoint : Vector3.t
}.

(** The nodes from the object at [path] up to the root, the object first. *)
Fixpoint lineage (nodes : list Object3D) (path : list nat) : option (list Object3D) :=
  match path with
  | [] => None
  | i :: rest =>
      match nth_error nodes i with
      | None => None
      | Some n =>
          match rest with
          | [] => Some [n]
          | _ :: _ =>
              match lineage (childrenOf n) rest with
              | Some l => Some (l ++ [n])
              | None => None
              end
          end
      end
  end.

(** The handlers one intersection is offered to, in order; none if the path
    does not lead to an object the ray can intersect. *)
Definition handlersOfHit (nodes : list Object3D) (hit : Intersection)
  : list (ClickHandler * ThreeEvent) :=
  match lineage nodes (hitPath hit) with
  | Some (target :: ancestors) =>
      if raycastable target
      then flat_map
             (fun n => match onClickOf n with
                       | Some h => [(h, mkEvent (hitPoint hit))]
                       | None => []
                       end)
             (target :: ancestors)
      else []
  | _ => []
  end.

(** Call the handlers in order until one stops the propagation. *)
Fixpoint deliver (clock : Z) (hs : list (ClickHandler * ThreeEvent))
  (snap w : World) : Handled :=
  match hs with
  | [] => (w, false)
  | (h, e) :: rest =>
      let '(w', stopped) := runHandler clock h e snap w in
      if stopped then (w', true) else deliver clock rest snap w'
  end.

(** A click on the canvas: the intersections of its ray, nearest first, and
    the clock reading while it is handled. *)
Record Click : Type := mkClick {
  hits : list Intersection;
  clock : Z
}.

(** A click on the viewport.  The [<Canvas>] element's own [onClick] is a DOM
    handler outside the scene graph; [domAfterStop] says whether it also runs
    when a scene handler stopped the propagation (the comment in the source
    assumes it does not). *)
Definition click (domAfterStop : bool) (c : Click) (w : World) : World :=
  let hs := flat_map (handlersOfHit (scene w)) (hits c) in
  let '(w1, stopped) := deliver (clock c) hs w w in
  if stopped && negb domAfterStop then w1 else canvasOnClick w w1.

(** A sequence of clicks, each handled after the re-render the previous one
    caused. *)
Definition clicks (domAfterStop : bool) (cs : list Click) (w : World) : World :=
  fold_left (fun acc c => click domAfterStop c acc) cs w.

(* ------------------------------------------------------------------ *)
(** ** Sequences of calls *)

(** [handleAddObject] called once per element of [calls], in order. *)
Definition addObjects (calls : list (Entropy * PartialSceneObject.t)) (w : World) : World :=
  fold_left (fun acc c => handleAddObject (fst c) (snd c) acc) calls w.

(* ------------------------------------------------------------------ *)
(** ** The fields of a [SceneObject], for statements about single fields *)

Inductive Field : Type :=
| f_id | f_name | f_type | f_geometryType | f_fileUrl
| f_position | f_rotation | f_scale | f_color.

Definition FieldType (f : Field) : Type :=
  match f with
  | f_id | f_name | f_color => string
  | f_type => ObjectType
  | f_geometryType => option GeometryType
  | f_fileUrl => option string
  | f_position | f_rotation | f_scale => Vec3
  end.

(** [o.field] *)
Definition get (f : Field) (o : SceneObject.t) : FieldType f :=
  match f with
  | f_id => SceneObject.id o
  | f_name => SceneObject.name o
  | f_type => SceneObject.type o
  | f_geometryType => SceneObject.geometryType o
  | f_fileUrl => SceneObject.fileUrl o
  | f_position => SceneObject.position o
  | f_rotation => SceneObject.rotation o
  | f_scale => SceneObject.scale o
  | f_color => SceneObject.color o
  end.

(** The object literal [{ field: v }]. *)
Definition single (f : Field) : FieldType f -> PartialSceneObject.t :=
  match f with
  | f_id => fun v => PartialSceneObject.mk (Some v) None None None None None None None None
  | f_name => fun v => PartialSceneObject.mk None (Some v) None None None None None None None
  | f_type => fun v => PartialSceneObject.mk None None (Some v) None None None None None None
  | f_geometryType => fun v => PartialSceneObject.mk None None None (Some v) None None None None None
  | f_fileUrl => fun v => PartialSceneObject.mk None None None None (Some v) None None None None
  | f_position => fun v => PartialSceneObject.mk None None None None None (Some v) None None None
  | f_rotation => fun v => PartialSceneObject.mk None None None None None None (Some v) None None
  | f_scale => fun v => PartialSceneObject.mk None None None None None None None (Some v) None
  | f_color => fun v => PartialSceneObject.mk None None None None None None None None (Some v)
  end.

(** Two consecutive calls of [handleCanvasClick], the second after the
    re-render the first one caused. *)
Definition twoCanvasClicks (t1 t2 : Z) (p q : Vector3.t) (w : World) : World :=
  let w1 := fst (handleCanvasClick t1 (mkEvent p) w w) in
  fst (handleCanvasClick t2 (mkEvent q) w1 w1).

(* ------------------------------------------------------------------ *)
(** ** The rest of [App.tsx] *)

Definition setBackground (v : string) (w : World) : World :=
  mkWorld (objects w) (selectedId w) (mode w) v
          (measurements w) (watermark w) (isRendering w) (renderResult w)
          (canvasRef w) (selectedParts w) (measuringStart w) (alerts w)
          (consoleErrors w) (objectURLs w) (inFlight w).

Definition setWatermark (v : WatermarkConfig.t) (w : World) : World :=
  mkWorld (objects w) (selectedId w) (mode w) (background w)
          (measurements w) v (isRendering w) (renderResult w)
          (canvasRef w) (selectedParts w) (measuringStart w) (alerts w)
          (consoleErrors w) (objectURLs w) (inFlight w).

(** [handleBackgroundUpload]; [url] is what [URL.createObjectURL] returns. *)
Definition handleBackgroundUpload (url : string) (f : File) (w : World) : World :=
  setBackground url (createObjectURL url f w).

(** [watermark.enabled && !renderResult && <div ...>]: whether the watermark
    preview is drawn over the viewport. *)
Definition watermarkPreviewShown (w : World) : bool :=
  WatermarkConfig.enabled (watermark w)
  && negb (match renderResult w with
           | Some r => truthy r
           | None => false
           end).

(** [measurements.length > 0 && <div ...>]: whether the measurement list,
    with its "Clear All" button, is drawn. *)
Definition measurementListShown (w : World) : bool :=
  negb (Nat.eqb (List.length (measurements w)) 0).

(** The modal's two close buttons: [() => setRenderResult(null)]. *)
Definition closeModal (w : World) : World :=
  setRenderResult None w.

(** Whether the modal shows the spinner ([isRendering ? ... : ...]) or the
    result pane with the close buttons. *)
Definition closeButtonsShown (w : World) : bool :=
  modalShown w && negb (isRendering w).

(** [href={renderResult || '#'}] of the download link. *)
Definition downloadHref (w : World) : string :=
  orString (renderResult w) "#".

(* ------------------------------------------------------------------ *)
(** ** The rest of [components/Toolbar.tsx] *)

(** The five [ToolButton]s, in source order, with their labels. *)
Definition toolButtons : list (ToolMode * string) :=
  [ (SELECT, "Select"); (MOVE, "Move"); (ROTATE, "Rotate"); (SCALE, "Scale");
    (MEASURE, "Measure") ].

(** The watermark checkbox:
    [setWatermark({...watermark, enabled: e.target.checked})]. *)
Definition onWatermarkEnabledChange (checked : bool) (snap w : World) : World :=
  setWatermark
    (WatermarkConfig.mk (WatermarkConfig.text (watermark snap)) checked
       (WatermarkConfig.opacity (watermark snap)))
    w.

(** The watermark text box:
    [setWatermark({...watermark, text: e.target.value})]; the input is
    [disabled={!watermark.enabled}], and a disabled input takes no edit. *)
Definition onWatermarkTextChange (value : string) (snap w : World) : World :=
  if WatermarkConfig.enabled (watermark snap)
  then setWatermark
         (WatermarkConfig.mk value (WatermarkConfig.enabled (watermark snap))
            (WatermarkConfig.opacity (watermark snap)))
         w
  else w.

(** The "Set BG" file input:
    [e.target.files?.[0] && onBackgroundUpload(e.target.files[0])]. *)
Definition onBackgroundChange (url : string) (files : option (list File))
  (w : World) : World :=
  match match files with
        | Some fl => nth_error fl 0
        | None => None
        end with
  | Some f => handleBackgroundUpload url f w
  | None => w
  end.

(* ------------------------------------------------------------------ *)
(** ** The rest of [components/AssetBrowser.tsx] *)

(** [disabled={selectedParts.size === 0}] of the assemble button. *)
Definition assembleButton (w : World) : Button :=
  mkButton (Nat.eqb (List.length (selectedParts w)) 0).

(** A click on the assemble button. *)
Definition clickAssemble (draws : nat -> Entropy) (w : World) : World :=
  if disabled (assembleButton w) then w else handleAssemble draws w w.

(** The checkbox of the [k]-th row of the part list:
    [onChange={() => togglePart(part.id)}]. *)
Definition clickPartCheckbox (k : nat) (w : World) : World :=
  match nth_error SYSTEM_PARTS k with
  | Some part => togglePart (DropboxFile.id part) w w
  | None => w
  end.

(* ------------------------------------------------------------------ *)
(** ** The rest of [components/Viewer3D.tsx] *)

(** [background.startsWith('http') || background.startsWith('blob')]: whether
    the background image layer is drawn behind the canvas. *)
Definition showsBackgroundImage (bg : string) : bool :=
  prefix "http" bg || prefix "blob" bg.

(** [background.startsWith('#') ? background : '#1a1a1d']: the clear color of
    the canvas. *)
Definition canvasColor (bg : string) : string :=
  if prefix "#" bg then bg else "#1a1a1d".

(** [isSelected ? '#4f9aff' : obj.color] *)
Definition materialColor (obj : SceneObject.t) (isSelected : bool) : string :=
  if isSelected then "#4f9aff" else SceneObject.color obj.

(** The [mode] prop of [TransformControls]. *)
Inductive TransformMode : Type := translate | rotate | scale.

(** [mode === ROTATE ? 'rotate' : mode === SCALE ? 'scale' : 'translate'] *)
Definition transformControlsMode (m : ToolMode) : TransformMode :=
  match m with
  | ROTATE => rotate
  | SCALE => scale
  | _ => translate
  end.

(** [isSelected && mode !== SELECT && mode !== MEASURE]: whether a scene item
    renders its [TransformControls]. *)
Definition showsTransformControls (isSelected : bool) (m : ToolMode) : bool :=
  isSelected && negb (ToolMode_eqb m SELECT) && negb (ToolMode_eqb m MEASURE).

(** What the gizmo has made of the mesh it is attached to: its position, the
    three angles of its rotation, its scale. *)
Record MeshState : Type := mkMesh {
  meshPosition : Vector3.t;
  meshRotation : Vector3.t;
  meshScale : Vector3.t
}.

(** The argument of [onTransform] in [onObjectChange]. *)
Definition transformUpdates (m : MeshState) : PartialSceneObject.t :=
  PartialSceneObject.mk None None None None None
    (Some (Vector3.toArray (meshPosition m)))
    (Some (Vector3.x (meshRotation m), Vector3.y (meshRotation m),
           Vector3.z (meshRotation m)))
    (Some (Vector3.toArray (meshScale m)))
    None.

(** [onObjectChange] of the [TransformControls] of the scene item of object
    [objId]: nothing without a mesh ref, else
    [onUpdateObject(obj.id, { position, rotation, scale })]. *)
Definition onObjectChange (meshRef : option MeshState) (objId : string)
  (w : World) : World :=
  match meshRef with
  | Some m => handleUpdateObject objId (transformUpdates m) w
  | None => w
  end.

(** [MeasurementController], a component of its own with its own pending
    start point.  [completed] collects the calls of its [onMeasureComplete]
    prop. *)
Module MeasurementController.
Record State : Type := mk {
  startPoint : option Vector3.t;
  completed : list (Vec3 * Vec3)
}.

(** [handleClick], and whether it stopped the propagation. *)
Definition handleClick (active : bool) (e : ThreeEvent) (s : State) : State * bool :=
  if negb active then (s, false)
  else
    match startPoint s with
    | None => (mk (Some (Vector3.clone (point e))) (completed s), true)
    | Some start =>
        let endPoint := Vector3.clone (point e) in
        (mk None
            (completed s ++ [(Vector3.toArray start, Vector3.toArray endPoint)]),
         true)
    end.

(** The effect on [active]: [if (!active) setStartPoint(null)]. *)
Definition onActiveChange (active : bool) (s : State) : State :=
  if negb active then mk None (completed s) else s.

(** Clicks while [active] does not change. *)
Definition handleClicks (active : bool) (es : list ThreeEvent) (s : State) : State :=
  fold_left (fun acc e => fst (handleClick active e acc)) es s.
End MeasurementController.

(* ------------------------------------------------------------------ *)
(** ** The page as a transition system

    One constructor per thing the user or the browser can do to the page.
    Events are delivered whether or not the modal covers the page (only the
    render button distinguishes pointer from keyboard), which admits every
    run of the page and more. *)

Inductive Event : Type :=
| ToolClick (m : ToolMode)
| WatermarkEnabledChange (checked : bool)
| WatermarkTextChange (value : string)
| BackgroundChange (url : string) (files : option (list File))
| RenderActivate (via : Activation)
| RenderSettle (i : nat) (o : Outcome)
| ModalClose
| MeasurementsClear
| PartCheckbox (k : nat)
| AssembleClick (draws : nat -> Entropy)
| UploadChange (e : Entropy) (url : string) (files : option (list File))
| ViewportClick (c : Click)
| GizmoChange (objId : string) (meshRef : option MeshState)
| CanvasMount (c : HTMLCanvasElement).

(** Whether the scene holds the [TransformControls] of an object with id
    [objId]. *)
Definition gizmoRendered (objId : string) (w : World) : bool :=
  existsb (fun obj => String.eqb (SceneObject.id obj) objId) (objects w)
  && showsTransformControls (optStringEqb (Some objId) (selectedId w)) (mode w).

Definition step (domAfterStop : bool) (ev : Event) (w : World) : World :=
  match ev with
  | ToolClick m => setMode m w
  | WatermarkEnabledChange checked => onWatermarkEnabledChange checked w w
  | WatermarkTextChange value => onWatermarkTextChange value w w
  | BackgroundChange url files => onBackgroundChange url files w
  | RenderActivate via => activateGenerateRender via w
  | RenderSettle i o => settle i o w
  | ModalClose => if closeButtonsShown w then closeModal w else w
  | MeasurementsClear => if measurementListShown w then clearAll w else w
  | PartCheckbox k => clickPartCheckbox k w
  | AssembleClick draws => clickAssemble draws w
  | UploadChange e url files => handleUpload e url files w
  | ViewportClick c => click domAfterStop c w
  | GizmoChange objId meshRef =>
      if gizmoRendered objId w then onObjectChange meshRef objId w else w
  | CanvasMount c => mountCanvas c w
  end.

Definition run (domAfterStop : bool) (evs : list Event) (w : World) : World :=
  fold_left (fun acc ev => step domAfterStop ev acc) evs w.

(* ------------------------------------------------------------------ *)
(** ** Notions used in the statements *)

(** What an id is made of: the clock reading and the nine characters kept of
    the random text. *)
Definition seed (e : Entropy) : Z * string :=
  (now e, substring 2 9 (random36 e)).

(** The id as a function of the seed. *)
Definition idOfSeed (s : Z * string) : string :=
  jsString (fst s) ++ "-" ++ snd s.

(** No character of [s] is a minus sign. *)
Fixpoint dashFree (s : string) : bool :=
  match s with
  | EmptyString => true
  | String c s' => negb (Ascii.eqb c "-") && dashFree s'
  end.

(** The argument of [addObject] for one box primitive with everything else
    left to the defaults: [{ type: 'primitive', geometryType: 'box' }]. *)
Definition boxPrimitive : PartialSceneObject.t :=
  PartialSceneObject.mk None None (Some primitive) (Some (Some box)) None
    None None None None.

(** Some node of the subtree of [n] can be intersected by a ray. *)
Fixpoint hittable (n : Object3D) : bool :=
  match n with
  | Node g _ c =>
      match g with
      | Some g' => hasVertices g'
      | None => false
      end
      || existsb hittable c
  end.

(** The handler is one of the two that call [handleCanvasClick]. *)
Definition measuring (h : option ClickHandler) : bool :=
  match h with
  | Some InvisibleMeshClick | Some MeasureGroupClick => true
  | _ => false
  end.

(** In the subtree of [n], a node that carries a measurement handler has
    nothing in its own subtree that a ray can intersect. *)
Fixpoint deadMeasuring (n : Object3D) : bool :=
  match n with
  | Node g h c =>
      (negb (measuring h) || negb (hittable (Node g h c)))
      && forallb deadMeasuring c
  end.

(** The number [n], for a count [n]. *)
Definition numberOfNat (n : nat) : number :=
  PrimFloat.of_uint63 (Uint63.of_Z (Z.of_nat n)).

(** [index] after [i] executions of [index++]. *)
Fixpoint bump (i : nat) (index : number) : number :=
  match i with
  | O => index
  | S j => bump j (index + 1)%float
  end.

(** The objects the loop of [handleAssemble] appends, when it starts with
    [index] and has made [calls] calls of [onAddObject] before. *)
Fixpoint assembled (draws : nat -> Entropy) (index : number) (calls : nat)
  (partIds : list string) : list SceneObject.t :=
  match partIds with
  | [] => []
  | id :: rest =>
      match findPart id with
      | Some part =>
          newObj (draws calls) (assembleData part (index * 1.5)%float)
          :: assembled draws (index + 1)%float (S calls) rest
      | None => assembled draws index calls rest
      end
  end.

(** The first component of a position. *)
Definition xOf (o : SceneObject.t) : number :=
  fst (fst (SceneObject.position o)).

(** The ids of the objects of a store, in store order. *)
Definition ids (os : list SceneObject.t) : list string :=
  map SceneObject.id os.

(** The id is the id of a part of the catalog. *)
Definition knownPart (id : string) : bool :=
  match findPart id with
  | Some _ => true
  | None => false
  end.

(** The id of the last object of a list, if any. *)
Definition lastId (os : list SceneObject.t) : option string :=
  match rev os with
  | o :: _ => Some (SceneObject.id o)
  | [] => None
  end.

(** The calls of [onAddObject] the loop of [handleAssemble] makes, in order,
    when it starts with [index] and has made [calls] calls before. *)
Fixpoint assembleCalls (draws : nat -> Entropy) (index : number) (calls : nat)
  (partIds : list string) : list (Entropy * PartialSceneObject.t) :=
  match partIds with
  | [] => []
  | id :: rest =>
      match findPart id with
      | Some part =>
          (draws calls, assembleData part (index * 1.5)%float)
          :: assembleCalls draws (index + 1)%float (S calls) rest
      | None => assembleCalls draws index calls rest
      end
  end.

(** The node is a [TransformControls] gizmo. *)
Definition isGizmo (n : Object3D) : bool :=
  match geometryOf n with
  | Some gizmoGeometry => true
  | _ => false
  end.

(** The object is the selected one. *)
Definition isSelectedIn (w : World) (obj : SceneObject.t) : bool :=
  optStringEqb (Some (SceneObject.id obj)) (selectedId w).

(** [p] holds of [n] and of every node below it. *)
Fixpoint everyNode (p : Object3D -> bool) (n : Object3D) : bool :=
  match n with
  | Node g h c => p (Node g h c) && forallb (everyNode p) c
  end.

(** If the node has a scene item's handler, the item's object is in [os]. *)
Definition handlerOfStore (os : list SceneObject.t) (n : Object3D) : bool :=
  match onClickOf n with
  | Some (SceneItemClick i) =>
      existsb (fun o => String.eqb (SceneObject.id o) i) os
  | _ => true
  end.

(** Consecutive elements taken two by two; a last odd one is left out. *)
Fixpoint pairUp {A : Type} (l : list A) : list (A * A) :=
  match l with
  | a :: b :: rest => (a, b) :: pairUp rest
  | _ => []
  end.

(** The last element of a list of odd length. *)
Fixpoint oddOneOut {A : Type} (l : list A) : option A :=
  match l with
  | a :: b :: rest => oddOneOut rest
  | [a] => Some a
  | [] => None
  end.

(** [handleCanvasClick] once per element of [es] (clock reading and point),
    each call after the re-render the previous one caused. *)
Definition canvasClicks (es : list (Z * Vector3.t)) (w : World) : World :=
  fold_left
    (fun acc e => fst (handleCanvasClick (fst e) (mkEvent (snd e)) acc acc))
    es w.

(** The measurement [handleCanvasClick] makes of a first and a second
    click. *)
Definition measurementOf (c : (Z * Vector3.t) * (Z * Vector3.t)) : Measurement.t :=
  Measurement.mk (jsString (fst (snd c)))
    (Vector3.toArray (snd (fst c)))
    (Vector3.toArray (snd (snd c)))
    (Vector3.distanceTo (snd (fst c)) (snd (snd c))).

(** The selection is empty or names an object of the store. *)
Definition validSelection (w : World) : Prop :=
  match selectedId w with
  | Some i => In i (ids (objects w))
  | None => True
  end.

(** The selected part ids are pairwise distinct ids of catalog parts. *)
Definition catalogSelection (w : World) : Prop :=
  NoDup (selectedParts w)
  /\ incl (selectedParts w) (map DropboxFile.id SYSTEM_PARTS).

(** A primitive has a geometry tag and no file URL, an uploaded object a file
    URL and no geometry tag; name and color are not empty. *)
Definition wellFormed (o : SceneObject.t) : Prop :=
  match SceneObject.type o with
  | primitive =>
      SceneObject.geometryType o <> None /\ SceneObject.fileUrl o = None
  | uploaded =>
      SceneObject.fileUrl o <> None /\ SceneObject.geometryType o = None
  end
  /\ SceneObject.name o <> "" /\ SceneObject.color o <> "".

(** The rendering flag is set only while a call is outstanding; every alert
    shown is the render failure text; there are as many alerts as logged
    errors. *)
Definition renderBookkeeping (w : World) : Prop :=
  (isRendering w = true -> inFlight w <> [])
  /\ Forall (fun a => a = "Rendering failed. Please try again.") (alerts w)
  /\ List.length (alerts w) = List.length (consoleErrors w).

(** The argument of [addObject] for a box primitive placed at [p]:
    [{ type: 'primitive', geometryType: 'box', position: p }]. *)
Definition boxAt (p : Vec3) : PartialSceneObject.t :=
  PartialSceneObject.mk None None (Some primitive) (Some (Some box)) None
    (Some p) None None None.

(* ================================================================== *)
(** * Properties *)

(* ------------------------------------------------------------------ *)
(** ** binary64 arithmetic: swapping the operands of a squared difference *)

Section SquaredDifference.
Import SpecFloat.
Variables prec emax : Z.

Lemma binary_round_aux_negb s m e l :
  binary_round_aux prec emax (negb s) m e l
  = SFopp (binary_round_aux prec emax s m e l).
Proof.
  unfold binary_round_aux.
  destruct (shr_fexp prec emax m e l) as [mrs e'].
  destruct (shr_fexp prec emax _ e' loc_Exact) as [mrs2 e2].
  destruct (shr_m mrs2); simpl; try reflexivity.
  destruct (Z.leb e2 (emax - prec)); reflexivity.
Qed.

Lemma binary_normalize_opp m e :
  binary_normalize prec emax (- m) e false
  = match m with
    | Z0 => S754_zero false
    | _ => SFopp (binary_normalize prec emax m e false)
    end.
Proof.
  destruct m as [|m|m]; simpl; try reflexivity; unfold binary_round;
    destruct (shl_align _ _ _) as [mz ez].
  - apply (binary_round_aux_negb false).
  - rewrite <- (binary_round_aux_negb true). reflexivity.
Qed.

Lemma SFmul_opp_opp u :
  SFmul prec emax (SFopp u) (SFopp u) = SFmul prec emax u u.
Proof.
  destruct u as [s|s| |s m e]; simpl; try reflexivity; destruct s; reflexivity.
Qed.

Lemma SFsub_swap_square u v :
  SFmul prec emax (SFsub prec emax u v) (SFsub prec emax u v)
  = SFmul prec emax (SFsub prec emax v u) (SFsub prec emax v u).
Proof.
  destruct u as [su|su| |su mu eu], v as [sv|sv| |sv mv ev].
  16: { unfold SFsub. rewrite (Z.min_comm ev eu).
        set (a := cond_Zopp su _). set (b := cond_Zopp sv _).
        replace (b - a)%Z with (- (a - b))%Z by ring.
        rewrite binary_normalize_opp.
        destruct (a - b)%Z; try reflexivity; symmetry; apply SFmul_opp_opp. }
  all: try destruct su; try destruct sv; reflexivity.
Qed.
End SquaredDifference.

Lemma sub_swap_square (a b : float) :
  ((a - b) * (a - b) = (b - a) * (b - a))%float.
Proof.
  apply Prim2SF_inj. rewrite !FloatAxioms.mul_spec, !FloatAxioms.sub_spec. apply SFsub_swap_square.
Qed.

Lemma distanceTo_comm (p q : Vector3.t) :
  Vector3.distanceTo p q = Vector3.distanceTo q p.
Proof.
  unfold Vector3.distanceTo, Vector3.distanceToSquared; cbv zeta.
  rewrite (sub_swap_square (Vector3.x p)), (sub_swap_square (Vector3.y p)),
    (sub_swap_square (Vector3.z p)).
  reflexivity.
Qed.

Lemma distanceTo_euclideanNorm (p q : Vector3.t) :
  Vector3.distanceTo p q = euclideanNorm (Vector3.toArray p) (Vector3.toArray q).
Proof.
  rewrite distanceTo_comm. reflexivity.
Qed.

Lemma clone_id (p : Vector3.t) : Vector3.clone p = p.
Proof. destruct p; reflexivity. Qed.

(* ------------------------------------------------------------------ *)
(** ** Measurement: [handleCanvasClick] *)

(** What [handleCanvasClick] does once it is called.  In measure mode it
    fills the empty pending-start
    slot with the clicked point and touches nothing else; on a full slot it
    appends exactly one measurement from the pending start to the clicked
    point whose distance is the Euclidean norm of (end - start), and empties
    the slot; so two clicks from an empty slot add one measurement between
    the two points.  The distance does not depend on the order of the two
    points, and clicks at (0,0,0) and (3,4,0) give distance 5. *)
Theorem measure_two_clicks (w : World) (t1 t2 : Z) (p q : Vector3.t) :
  mode w = MEASURE ->
  (measuringStart w = None ->
     fst (handleCanvasClick t1 (mkEvent p) w w) = setMeasuringStart (Some p) w)
  /\ (forall start, measuringStart w = Some start ->
        exists m,
          fst (handleCanvasClick t2 (mkEvent q) w w)
          = setMeasuringStart None (setMeasurements (fun ms => ms ++ [m]) w)
          /\ Measurement.startPoint m = Vector3.toArray start
          /\ Measurement.endPoint m = Vector3.toArray q
          /\ Measurement.distance m
             = euclideanNorm (Measurement.startPoint m) (Measurement.endPoint m))
  /\ (measuringStart w = None ->
        let w' := twoCanvasClicks t1 t2 p q w in
        measurements w'
        = measurements w
          ++ [Measurement.mk (jsString t2) (Vector3.toArray p) (Vector3.toArray q)
                (euclideanNorm (Vector3.toArray p) (Vector3.toArray q))]
        /\ measuringStart w' = None)
  /\ euclideanNorm (Vector3.toArray p) (Vector3.toArray q)
     = euclideanNorm (Vector3.toArray q) (Vector3.toArray p)
  /\ (measuringStart w = None ->
        map Measurement.distance
          (measurements
             (twoCanvasClicks t1 t2 (Vector3.mk 0 0 0)%float (Vector3.mk 3 4 0)%float w))
        = map Measurement.distance (measurements w) ++ [5%float]).
Proof.
  intros Hmode.
  assert (Hfirst : forall r, measuringStart w = None ->
            fst (handleCanvasClick t1 (mkEvent r) w w)
            = setMeasuringStart (Some r) w).
  { intros r Hs. unfold handleCanvasClick. rewrite Hmode, Hs. simpl.
    now rewrite clone_id. }
  assert (Htwo : forall r s, measuringStart w = None ->
            measurements (twoCanvasClicks t1 t2 r s w)
            = measurements w
              ++ [Measurement.mk (jsString t2) (Vector3.toArray r)
                    (Vector3.toArray s)
                    (euclideanNorm (Vector3.toArray r) (Vector3.toArray s))]
            /\ measuringStart (twoCanvasClicks t1 t2 r s w) = None).
  { intros r s Hs. unfold twoCanvasClicks. rewrite (Hfirst r Hs).
    unfold handleCanvasClick. simpl. rewrite Hmode. simpl.
    now rewrite distanceTo_euclideanNorm. }
  split; [exact (Hfirst p)|].
  split.
  { intros start Hs. unfold handleCanvasClick. rewrite Hmode, Hs.
    eexists. split; [reflexivity|]. simpl.
    repeat split. apply distanceTo_euclideanNorm. }
  split; [exact (Htwo p q)|].
  split.
  { rewrite <- !distanceTo_euclideanNorm. apply distanceTo_comm. }
  intros Hs. destruct (Htwo (Vector3.mk 0 0 0)%float (Vector3.mk 3 4 0)%float Hs) as [-> _].
  rewrite map_app. reflexivity.
Qed.

Lemma measure_two_clicks_witness :
  mode (setMode MEASURE initialWorld) = MEASURE
  /\ measurements
       (twoCanvasClicks 1000 2000 (Vector3.mk 0 0 0)%float (Vector3.mk 3 4 0)%float
          (setMode MEASURE initialWorld))
     = [Measurement.mk "2000" (0, 0, 0)%float (3, 4, 0)%float 5%float].
Proof.
  split; [reflexivity|].
  exact (proj1 (proj1 (proj2 (proj2
    (measure_two_clicks (setMode MEASURE initialWorld) 1000 2000
       (Vector3.mk 0 0 0)%float (Vector3.mk 3 4 0)%float eq_refl))) eq_refl)).
Defined.

(* ------------------------------------------------------------------ *)
(** ** Object ids *)

Lemma string_of_uint_dashFree (d : Decimal.uint) :
  dashFree (NilEmpty.string_of_uint d) = true.
Proof. induction d; simpl; auto. Qed.

Lemma dashFree_split (a b t1 t2 : string) :
  dashFree a = true -> dashFree b = true ->
  (a ++ String "-" t1 = b ++ String "-" t2)%string -> a = b /\ t1 = t2.
Proof.
  revert b. induction a as [|c a IH]; intros [|d b] Ha Hb H; simpl in *.
  - injection H as ->. auto.
  - injection H as <- _. apply andb_prop in Hb as [Hb _].
    rewrite Ascii.eqb_refl in Hb. discriminate.
  - injection H as -> _. apply andb_prop in Ha as [Ha _].
    rewrite Ascii.eqb_refl in Ha. discriminate.
  - injection H as -> H. apply andb_prop in Ha as [_ Ha].
    apply andb_prop in Hb as [_ Hb].
    destruct (IH b Ha Hb H) as [-> ->]. auto.
Qed.

Lemma string_of_uint_inj (u v : Decimal.uint) :
  NilEmpty.string_of_uint u = NilEmpty.string_of_uint v -> u = v.
Proof.
  intros H. apply (f_equal NilEmpty.uint_of_string) in H.
  rewrite !NilEmpty.usu in H. now injection H.
Qed.

(** The decimal text of an integer: digits, after a minus sign for a negative
    one; never empty. *)
Lemma jsString_shape (z : Z) :
  exists u, u <> Decimal.Nil /\
    ((Z.to_int z = Decimal.Pos u /\ jsString z = NilEmpty.string_of_uint u)
     \/ (Z.to_int z = Decimal.Neg u
         /\ jsString z = String "-" (NilEmpty.string_of_uint u))).
Proof.
  unfold jsString. destruct z as [|p|p]; simpl.
  - exists (Decimal.D0 Decimal.Nil). split; [discriminate|]. left. auto.
  - exists (Pos.to_uint p). split; [apply DecimalPos.Unsigned.to_uint_nonnil|].
    left. split; [reflexivity|].
    unfold NilZero.string_of_uint.
    pose proof (DecimalPos.Unsigned.to_uint_nonnil p) as Hn.
    destruct (Pos.to_uint p); [contradiction|reflexivity..].
  - exists (Pos.to_uint p). split; [apply DecimalPos.Unsigned.to_uint_nonnil|].
    right. split; [reflexivity|].
    unfold NilZero.string_of_uint.
    pose proof (DecimalPos.Unsigned.to_uint_nonnil p) as Hn.
    destruct (Pos.to_uint p); [contradiction|reflexivity..].
Qed.

Lemma string_of_uint_head (u : Decimal.uint) :
  u <> Decimal.Nil ->
  exists c s, NilEmpty.string_of_uint u = String c s /\ Ascii.eqb c "-" = false.
Proof.
  destruct u; [contradiction| ..]; intros _; simpl; eauto.
Qed.

(** An id determines the clock reading and the random suffix it was built
    from. *)
Lemma idOfSeed_inj (s1 s2 : Z * string) : idOfSeed s1 = idOfSeed s2 -> s1 = s2.
Proof.
  destruct s1 as [z1 t1], s2 as [z2 t2]. unfold idOfSeed; simpl.
  destruct (jsString_shape z1) as (u1 & Hn1 & H1).
  destruct (jsString_shape z2) as (u2 & Hn2 & H2).
  intros H.
  assert (Hgo : Z.to_int z1 = Z.to_int z2 -> t1 = t2 -> (z1, t1) = (z2, t2)).
  { intros Hz ->. apply DecimalZ.to_int_inj in Hz. now subst. }
  destruct H1 as [[E1 S1]|[E1 S1]], H2 as [[E2 S2]|[E2 S2]];
    rewrite S1, S2 in H; rewrite E1, E2 in Hgo.
  - apply dashFree_split in H; try apply string_of_uint_dashFree.
    destruct H as [Hu ->]. apply string_of_uint_inj in Hu. subst. now apply Hgo.
  - destruct (string_of_uint_head u1 Hn1) as (c & s & Hc & Hd).
    rewrite Hc in H. simpl in H. injection H as -> _.
    rewrite Ascii.eqb_refl in Hd. discriminate.
  - destruct (string_of_uint_head u2 Hn2) as (c & s & Hc & Hd).
    rewrite Hc in H. simpl in H. injection H as <- _.
    rewrite Ascii.eqb_refl in Hd. discriminate.
  - simpl in H. injection H as H.
    apply dashFree_split in H; try apply string_of_uint_dashFree.
    destruct H as [Hu ->]. apply string_of_uint_inj in Hu. subst. now apply Hgo.
Qed.

Lemma uniqueId_seed (e : Entropy) : uniqueId e = idOfSeed (seed e).
Proof. reflexivity. Qed.

Lemma uniqueId_eq_iff (e1 e2 : Entropy) :
  uniqueId e1 = uniqueId e2 <-> seed e1 = seed e2.
Proof.
  rewrite !uniqueId_seed. split; [apply idOfSeed_inj | congruence].
Qed.

(* ------------------------------------------------------------------ *)
(** ** The object store: [handleAddObject], [handleUpdateObject] *)

Lemma world_eta (w : World) :
  mkWorld (objects w) (selectedId w) (mode w) (background w)
          (measurements w) (watermark w) (isRendering w) (renderResult w)
          (canvasRef w) (selectedParts w) (measuringStart w) (alerts w)
          (consoleErrors w) (objectURLs w) (inFlight w) = w.
Proof. destruct w; reflexivity. Qed.

Lemma ids_app (a b : list SceneObject.t) : ids (a ++ b) = ids a ++ ids b.
Proof. apply map_app. Qed.

(** C3, as the code has it.  [handleAddObject] appends exactly one object at
    the end of the store and changes nothing but the store, the selection and
    the mode; every field the argument leaves unset has its default; the
    object is selected and the mode is [MOVE].  Its id is the text
    [<Date.now()>-<nine characters of the random text>], whatever the
    argument says: two calls produce the same id exactly when they read the
    same clock value and the same nine random characters, and the store's ids
    stay pairwise distinct whenever that text is not yet among them.  One box
    primitive added to the empty scene gives one object, selected, in mode
    [MOVE]. *)
Theorem addObject_defaults_append_select
  (e : Entropy) (objData : PartialSceneObject.t) (w : World) :
  let o := newObj e objData in
  let w' := handleAddObject e objData w in
  w' = setMode MOVE (setSelectedId (Some (uniqueId e))
                       (setObjects (fun prev => prev ++ [o]) w))
  /\ objects w' = objects w ++ [o]
  /\ selectedId w' = Some (SceneObject.id o)
  /\ mode w' = MOVE
  /\ (PartialSceneObject.name objData = None -> SceneObject.name o = "New Object")
  /\ (PartialSceneObject.type objData = None -> SceneObject.type o = primitive)
  /\ (PartialSceneObject.position objData = None ->
        SceneObject.position o = (0, 0, 0)%float)
  /\ (PartialSceneObject.rotation objData = None ->
        SceneObject.rotation o = (0, 0, 0)%float)
  /\ (PartialSceneObject.scale objData = None ->
        SceneObject.scale o = (1, 1, 1)%float)
  /\ (PartialSceneObject.color objData = None -> SceneObject.color o = "#ffffff")
  /\ SceneObject.id o = uniqueId e
  /\ (forall e' objData',
        SceneObject.id (newObj e' objData') = SceneObject.id o <-> seed e' = seed e)
  /\ (NoDup (ids (objects w)) -> ~ In (uniqueId e) (ids (objects w)) ->
        NoDup (ids (objects w')))
  /\ (let w1 := handleAddObject e boxPrimitive initialWorld in
      objects w1
      = [SceneObject.mk (uniqueId e) "New Object" primitive (Some box) None
           (0, 0, 0)%float (0, 0, 0)%float (1, 1, 1)%float "#ffffff"]
      /\ List.length (objects w1) = 1
      /\ selectedId w1 = Some (uniqueId e)
      /\ mode w1 = MOVE).
Proof.
  cbv zeta.
  assert (Hnd : NoDup (ids (objects w)) -> ~ In (uniqueId e) (ids (objects w)) ->
                NoDup (ids (objects (handleAddObject e objData w)))).
  { intros Hnd Hfresh. simpl. rewrite ids_app. simpl.
    apply NoDup_app; [exact Hnd | repeat constructor; intros [] | ].
    intros x Hx [<-|[]]. exact (Hfresh Hx). }
  repeat match goal with |- _ /\ _ => split end;
    try reflexivity;
    try (unfold newObj; simpl; intros ->; reflexivity).
  - intros e' d'. apply uniqueId_eq_iff.
  - exact Hnd.
Qed.

(** The id [handleAddObject] assigns need not be fresh: when the clock and
    the random source return what they returned for an earlier call, the new
    object carries an id the store already holds. *)
Lemma addObject_id_not_fresh :
  let e := mkEntropy 1700000000000 "0.4fzyo82mvyr" in
  let w := handleAddObject e boxPrimitive initialWorld in
  In (SceneObject.id (newObj e boxPrimitive)) (ids (objects w))
  /\ ~ NoDup (ids (objects (handleAddObject e boxPrimitive w))).
Proof.
  cbv zeta. split.
  - left. reflexivity.
  - intros H. inversion H as [|x l Hin _]. apply Hin. left. reflexivity.
Qed.

Lemma addObjects_objects (calls : list (Entropy * PartialSceneObject.t)) (w : World) :
  objects (addObjects calls w)
  = objects w ++ map (fun c => newObj (fst c) (snd c)) calls.
Proof.
  unfold addObjects. revert w.
  induction calls as [|c calls IH]; intros w; simpl.
  - now rewrite app_nil_r.
  - rewrite IH. simpl. now rewrite <- app_assoc.
Qed.

Lemma idOfSeed_injective : Finite.Injective idOfSeed.
Proof. intros a b. apply idOfSeed_inj. Qed.

(** C8, as the code has it.  After any sequence of [handleAddObject] calls on
    an empty store the store holds exactly the objects the calls produced, in
    call order, whatever the clock and the random source returned; their ids
    are pairwise distinct exactly when no two calls read both the same clock
    value and the same nine random characters. *)
Theorem addObjects_call_order_distinct_ids
  (calls : list (Entropy * PartialSceneObject.t)) (w : World) :
  objects w = [] ->
  objects (addObjects calls w) = map (fun c => newObj (fst c) (snd c)) calls
  /\ ids (objects (addObjects calls w)) = map (fun c => uniqueId (fst c)) calls
  /\ (NoDup (map (fun c => seed (fst c)) calls) ->
      NoDup (ids (objects (addObjects calls w))))
  /\ (NoDup (ids (objects (addObjects calls w))) ->
      NoDup (map (fun c => seed (fst c)) calls)).
Proof.
  intros Hempty. rewrite addObjects_objects, Hempty. simpl.
  assert (E : ids (map (fun c => newObj (fst c) (snd c)) calls)
              = map idOfSeed (map (fun c => seed (fst c)) calls)).
  { unfold ids. now rewrite !map_map. }
  split; [reflexivity|].
  split; [unfold ids; now rewrite map_map|].
  rewrite E. split.
  - apply Finite.Injective_map_NoDup. apply idOfSeed_injective.
  - apply NoDup_map_inv.
Qed.

Lemma addObjects_call_order_distinct_ids_witness :
  let calls := [ (mkEntropy 1700000000000 "0.4fzyo82mvyr", boxPrimitive);
                 (mkEntropy 1700000000000 "0.k3x9q0p1zzab", PartialSceneObject.empty) ] in
  ids (objects (addObjects calls initialWorld))
  = ["1700000000000-4fzyo82mv"; "1700000000000-k3x9q0p1z"]
  /\ NoDup (ids (objects (addObjects calls initialWorld))).
Proof.
  cbv zeta. split; [reflexivity|].
  refine (proj1 (proj2 (proj2
    (addObjects_call_order_distinct_ids _ initialWorld eq_refl))) _).
  simpl. constructor.
  - intros [H|[]]. discriminate H.
  - constructor; [intros [] | constructor].
Defined.

(** With the same clock reading and the same random text for two calls, two
    objects of the store carry the same id. *)
Lemma addObjects_ids_can_collide :
  let e := mkEntropy 1700000000000 "0.4fzyo82mvyr" in
  let calls := [ (e, boxPrimitive); (e, PartialSceneObject.empty) ] in
  objects initialWorld = []
  /\ ~ NoDup (ids (objects (addObjects calls initialWorld))).
Proof.
  cbv zeta. split; [reflexivity|].
  intros H. inversion H as [|x l Hin _]. apply Hin. left. reflexivity.
Qed.

(** C4.  [handleUpdateObject id {field: v}] keeps the store's length and
    order; an entry whose id is [id] gets [v] in that field and keeps every
    other field; an entry with another id is unchanged; nothing outside the
    object store changes (selection and mode included); and when no entry has
    the id the whole state is unchanged. *)
Theorem updateObject_single_field
  (w : World) (id : string) (f : Field) (v : FieldType f) :
  let w' := handleUpdateObject id (single f v) w in
  List.length (objects w') = List.length (objects w)
  /\ (forall k o, nth_error (objects w) k = Some o ->
        exists o', nth_error (objects w') k = Some o'
          /\ (SceneObject.id o = id ->
                get f o' = v /\ forall g, g <> f -> get g o' = get g o)
          /\ (SceneObject.id o <> id -> o' = o))
  /\ selectedId w' = selectedId w
  /\ mode w' = mode w
  /\ w' = setObjects (fun _ => objects w') w
  /\ ((forall o, In o (objects w) -> SceneObject.id o <> id) -> w' = w).
Proof.
  cbv zeta. unfold handleUpdateObject. simpl.
  split; [apply length_map|].
  split.
  { intros k o Hk. rewrite nth_error_map, Hk. simpl.
    eexists. split; [reflexivity|].
    destruct (String.eqb_spec (SceneObject.id o) id) as [E|E].
    - split; [intros _|contradiction].
      split.
      + destruct f; reflexivity.
      + intros g Hg. destruct f, g; try reflexivity; contradiction.
    - split; [contradiction|reflexivity]. }
  repeat (split; [reflexivity|]).
  intros Hno. unfold setObjects.
  rewrite (map_ext_in _ (fun o => o)), map_id; [apply world_eta|].
  intros o Ho. destruct (String.eqb_spec (SceneObject.id o) id) as [E|E];
    [destruct (Hno o Ho E) | reflexivity].
Qed.

(* ------------------------------------------------------------------ *)
(** ** The viewport's click wiring *)

Lemma raycastable_hittable (n : Object3D) :
  raycastable n = true -> hittable n = true.
Proof.
  destruct n as [g h c]. unfold raycastable. simpl.
  intros ->. reflexivity.
Qed.

Lemma deadMeasuring_children (n : Object3D) :
  deadMeasuring n = true -> forallb deadMeasuring (childrenOf n) = true.
Proof.
  destruct n as [g h c]. simpl. intros H.
  apply andb_prop in H. apply H.
Qed.

Lemma child_hittable (n m : Object3D) :
  In m (childrenOf n) -> hittable m = true -> hittable n = true.
Proof.
  destruct n as [g h c]. simpl. intros Hin Hm.
  apply orb_true_iff. right. apply existsb_exists. eauto.
Qed.

(** The lineage of a hit is never empty; it ends in a top-level node; and if
    its first node can be intersected, every node of it has something under
    it a ray can intersect. *)
Lemma lineage_inv (path : list nat) :
  forall nodes l,
    forallb deadMeasuring nodes = true ->
    lineage nodes path = Some l ->
    exists t anc pre top,
      l = t :: anc /\ l = pre ++ [top] /\ In top nodes
      /\ (raycastable t = true ->
          Forall (fun n => hittable n = true /\ deadMeasuring n = true) l).
Proof.
  induction path as [|i rest IH]; intros nodes l Hdead Hl; simpl in Hl.
  - discriminate.
  - destruct (nth_error nodes i) as [n|] eqn:Hn; [|discriminate].
    assert (Hin : In n nodes) by (eapply nth_error_In; eauto).
    assert (Hdn : deadMeasuring n = true).
    { rewrite forallb_forall in Hdead. auto. }
    destruct rest as [|j r].
    + injection Hl as <-. exists n, [], [], n.
      repeat split; auto.
      intros Hr. constructor; [|constructor].
      split; [now apply raycastable_hittable | exact Hdn].
    + destruct (lineage (childrenOf n) (j :: r)) as [l'|] eqn:Hl'; [|discriminate].
      injection Hl as <-.
      destruct (IH (childrenOf n) l' (deadMeasuring_children n Hdn) Hl')
        as (t & anc & pre & top & E1 & E2 & Htop & Hall).
      exists t, (anc ++ [n]), l', n.
      repeat split; auto.
      * rewrite E1. reflexivity.
      * intros Hr. specialize (Hall Hr). apply Forall_app. split; [exact Hall|].
        constructor; [|constructor]. split; [|exact Hdn].
        apply (child_hittable n top Htop).
        rewrite Forall_forall in Hall. apply Hall.
        rewrite E2. apply in_or_app. right. left. reflexivity.
Qed.

Lemma forallb_flat_map {A B : Type} (p : B -> bool) (f : A -> list B) (l : list A) :
  (forall a, forallb p (f a) = true) -> forallb p (flat_map f l) = true.
Proof.
  intros H. induction l as [|a l IH]; simpl; [reflexivity|].
  rewrite forallb_app, H, IH. reflexivity.
Qed.

Lemma SceneItem_dead (obj : SceneObject.t) (sel : bool) (m : ToolMode) :
  forallb deadMeasuring (SceneItem obj sel m) = true.
Proof.
  unfold SceneItem.
  destruct (sel && negb (ToolMode_eqb m SELECT) && negb (ToolMode_eqb m MEASURE));
    reflexivity.
Qed.

Lemma MeasurementLines_dead (ms : list Measurement.t) :
  forallb deadMeasuring (MeasurementLines ms) = true.
Proof. induction ms as [|m ms IH]; simpl; auto. Qed.

(** In the rendered scene the invisible mesh and the empty group, the only
    nodes with a measurement handler, have nothing a ray can intersect. *)
Lemma scene_dead (w : World) : forallb deadMeasuring (scene w) = true.
Proof.
  unfold scene. rewrite !forallb_app.
  rewrite MeasurementLines_dead.
  replace (forallb deadMeasuring
             match measuringStart w with
             | Some _ => [Node (Some sphereGeometry) None []]
             | None => []
             end) with true by (destruct (measuringStart w); reflexivity).
  simpl. unfold stageChildren. rewrite forallb_app, forallb_flat_map.
  - reflexivity.
  - intros obj. apply SceneItem_dead.
Qed.

(** Every handler a click can reach is the [onClick] of a scene item. *)
Lemma reachable_handlers (w : World) (hit : Intersection)
  (h : ClickHandler) (e : ThreeEvent) :
  In (h, e) (handlersOfHit (scene w) hit) -> exists objId, h = SceneItemClick objId.
Proof.
  unfold handlersOfHit.
  destruct (lineage (scene w) (hitPath hit)) as [l|] eqn:Hl; [|intros []].
  destruct (lineage_inv _ _ _ (scene_dead w) Hl)
    as (t & anc & pre & top & E1 & _ & _ & Hall).
  subst l. destruct (raycastable t) eqn:Hr; [|intros []].
  specialize (Hall eq_refl). rewrite Forall_forall in Hall.
  intros Hin. apply in_flat_map in Hin as (n & Hn & Hh).
  destruct (Hall n Hn) as [Hhit Hdead].
  destruct n as [g h' c]. simpl in Hh.
  destruct h' as [h'|]; [|destruct Hh].
  destruct Hh as [Hh|[]]. injection Hh as -> _.
  simpl in Hdead. apply andb_prop in Hdead as [Hdead _].
  simpl in Hhit. rewrite Hhit in Hdead.
  destruct h; simpl in Hdead; try discriminate. eauto.
Qed.

Lemma reachable_handlers_click (w : World) (c : Click)
  (h : ClickHandler) (e : ThreeEvent) :
  In (h, e) (flat_map (handlersOfHit (scene w)) (hits c)) ->
  exists objId, h = SceneItemClick objId.
Proof.
  intros Hin. apply in_flat_map in Hin as (hit & _ & Hin).
  eapply reachable_handlers; eauto.
Qed.

(** In measure mode a click changes nothing. *)
Lemma click_measure_noop (domAfterStop : bool) (c : Click) (w : World) :
  mode w = MEASURE -> click domAfterStop c w = w.
Proof.
  intros Hm. unfold click.
  destruct (flat_map (handlersOfHit (scene w)) (hits c)) as [|[h e] rest] eqn:Hhs.
  - simpl. unfold canvasOnClick. rewrite Hm. reflexivity.
  - destruct (reachable_handlers_click w c h e) as [objId ->].
    { rewrite Hhs. left. reflexivity. }
    simpl. unfold sceneItemOnSelect, canvasOnClick. rewrite Hm.
    destruct domAfterStop; reflexivity.
Qed.

(** C9.  In measure mode, with the click wiring as it is: the nodes that
    carry a measurement handler (the invisible mesh, which has no vertices,
    and the group, which has no children) have nothing a ray can intersect,
    so every handler a click can reach is a scene item's; a scene item's
    handler stops the propagation
    and changes nothing, the canvas handler changes nothing; so after any
    sequence of clicks the state is what it was: no measurement added, no
    pending start point recorded, the selection unchanged. *)
Theorem measure_mode_clicks_change_nothing
  (domAfterStop : bool) (w : World) (cs : list Click) :
  mode w = MEASURE ->
  forallb deadMeasuring (scene w) = true
  /\ (forall hit h e, In (h, e) (handlersOfHit (scene w) hit) ->
        exists objId, h = SceneItemClick objId)
  /\ (forall objId w0, sceneItemOnClick objId w w0 = (w0, true))
  /\ (forall w0, canvasOnClick w w0 = w0)
  /\ clicks domAfterStop cs w = w
  /\ measurements (clicks domAfterStop cs w) = measurements w
  /\ measuringStart (clicks domAfterStop cs w) = measuringStart w
  /\ selectedId (clicks domAfterStop cs w) = selectedId w.
Proof.
  intros Hm.
  assert (Hcs : clicks domAfterStop cs w = w).
  { unfold clicks. induction cs as [|c cs IH]; simpl; [reflexivity|].
    rewrite (click_measure_noop _ _ _ Hm). exact IH. }
  split; [apply scene_dead|].
  split; [apply reachable_handlers|].
  split; [intros; unfold sceneItemOnClick, sceneItemOnSelect; now rewrite Hm|].
  split; [intros; unfold canvasOnClick; now rewrite Hm|].
  rewrite Hcs. repeat split.
Qed.

Lemma measure_mode_clicks_change_nothing_witness :
  let w := setMode MEASURE
             (handleAddObject (mkEntropy 1700000000000 "0.4fzyo82mvyr")
                boxPrimitive initialWorld) in
  let pt := (Vector3.mk 0 0.5 0)%float in
  let cs := [ mkClick [mkHit [0; 0] pt] 1700000000100;
              mkClick [mkHit [0; 1] pt; mkHit [1] pt] 1700000000200;
              mkClick [] 1700000000300 ] in
  mode w = MEASURE
  /\ handlersOfHit (scene w) (mkHit [0; 0] pt)
     = [(SceneItemClick "1700000000000-4fzyo82mv", mkEvent pt)]
  /\ handlersOfHit (scene w) (mkHit [0; 1] pt) = []
  /\ handlersOfHit (scene w) (mkHit [1] pt) = []
  /\ clicks false cs w = w.
Proof.
  cbv zeta. repeat (split; [reflexivity|]).
  refine (proj1 (proj2 (proj2 (proj2 (proj2
    (measure_mode_clicks_change_nothing false _ _ _)))))).
  reflexivity.
Defined.

Lemma sceneItemGeometry_hasVertices (obj : SceneObject.t) :
  hasVertices (sceneItemGeometry obj) = true.
Proof.
  unfold sceneItemGeometry.
  destruct (SceneObject.type obj); [|reflexivity].
  destruct (SceneObject.geometryType obj) as [[]|]; reflexivity.
Qed.

(** Every object of the store has a mesh in the scene that a ray can hit and
    whose only handler is that object's. *)
Lemma object_mesh_clickable (w : World) (obj : SceneObject.t) :
  In obj (objects w) ->
  exists path, forall pt,
    handlersOfHit (scene w) (mkHit path pt)
    = [(SceneItemClick (SceneObject.id obj), mkEvent pt)].
Proof.
  intros Hin.
  set (m := Node (Some (sceneItemGeometry obj))
                 (Some (SceneItemClick (SceneObject.id obj))) []).
  assert (Hm : In m (stageChildren w)).
  { unfold stageChildren. apply in_or_app. left.
    apply in_flat_map. exists obj. split; [exact Hin|].
    unfold SceneItem. apply in_or_app. right. left. reflexivity. }
  apply In_nth_error in Hm as [j Hj].
  exists [0; j]. intros pt.
  unfold handlersOfHit. simpl. rewrite Hj. simpl.
  unfold raycastable. simpl. rewrite sceneItemGeometry_hasVertices.
  reflexivity.
Qed.

(** C2, as the code has it.  In move, rotate or scale mode a click that is
    offered first to the mesh of a rendered object selects that object,
    whatever was selected before, and changes nothing else; every object of
    the store has such a mesh.  The [onSelect] a scene item is given selects
    its object in every mode but measure: click-to-select is suppressed in
    measure mode only, where a click changes nothing. *)
Theorem transform_mode_click_selects
  (domAfterStop : bool) (w : World) (c : Click)
  (objId : string) (e : ThreeEvent) (more : list (ClickHandler * ThreeEvent)) :
  mode w = MOVE \/ mode w = ROTATE \/ mode w = SCALE ->
  flat_map (handlersOfHit (scene w)) (hits c) = (SceneItemClick objId, e) :: more ->
  click domAfterStop c w = setSelectedId (Some objId) w
  /\ selectedId (click domAfterStop c w) = Some objId
  /\ (forall obj, In obj (objects w) ->
        exists path, forall pt,
          handlersOfHit (scene w) (mkHit path pt)
          = [(SceneItemClick (SceneObject.id obj), mkEvent pt)])
  /\ (forall w0 w1 anyId, mode w0 <> MEASURE ->
        sceneItemOnSelect anyId w0 w1 = setSelectedId (Some anyId) w1)
  /\ (forall w0 c0, mode w0 = MEASURE -> click domAfterStop c0 w0 = w0).
Proof.
  intros Hmode Hhs.
  assert (Hc : click domAfterStop c w = setSelectedId (Some objId) w).
  { unfold click. rewrite Hhs. simpl.
    unfold sceneItemOnSelect, canvasOnClick.
    destruct Hmode as [-> | [-> | ->]]; destruct domAfterStop; reflexivity. }
  split; [exact Hc|].
  split; [rewrite Hc; reflexivity|].
  split; [apply object_mesh_clickable|].
  split.
  { intros w0 w1 anyId Hne. unfold sceneItemOnSelect.
    destruct (mode w0); try reflexivity. contradiction. }
  intros w0 c0. apply click_measure_noop.
Qed.

Lemma transform_mode_click_selects_witness :
  let w := handleAddObject (mkEntropy 1700000000001 "0.k3x9q0p1zzab") boxPrimitive
             (handleAddObject (mkEntropy 1700000000000 "0.4fzyo82mvyr")
                boxPrimitive initialWorld) in
  let c := mkClick [mkHit [0; 0] (Vector3.mk 0 0.5 0)%float] 1700000000100 in
  mode w = MOVE
  /\ selectedId w = Some "1700000000001-k3x9q0p1z"
  /\ selectedId (click false c w) = Some "1700000000000-4fzyo82mv".
Proof.
  cbv zeta. repeat (split; [reflexivity|]).
  refine (proj1 (proj2
    (transform_mode_click_selects false _ _ _ _ _ (or_introl _) _))).
  - reflexivity.
  - reflexivity.
Defined.

(** In move mode a click on the mesh of an object other than the selected
    one changes the selection to it: after adding two boxes the second is
    selected and the mode is [MOVE]; a click on the first box selects it. *)
Lemma move_mode_click_changes_selection :
  let w := handleAddObject (mkEntropy 1700000000001 "0.k3x9q0p1zzab") boxPrimitive
             (handleAddObject (mkEntropy 1700000000000 "0.4fzyo82mvyr")
                boxPrimitive initialWorld) in
  let c := mkClick [mkHit [0; 0] (Vector3.mk 0 0.5 0)%float] 1700000000100 in
  ids (objects w) = ["1700000000000-4fzyo82mv"; "1700000000001-k3x9q0p1z"]
  /\ mode w = MOVE
  /\ handlersOfHit (scene w) (mkHit [0; 0] (Vector3.mk 0 0.5 0)%float)
     = [(SceneItemClick "1700000000000-4fzyo82mv",
         mkEvent (Vector3.mk 0 0.5 0)%float)]
  /\ (forall domAfterStop,
        selectedId (click domAfterStop c w) <> selectedId w
        /\ selectedId w = Some "1700000000001-k3x9q0p1z"
        /\ selectedId (click domAfterStop c w) = Some "1700000000000-4fzyo82mv")
  /\ ~ (forall (domAfterStop : bool) (w0 : World) (c0 : Click),
          mode w0 = MOVE \/ mode w0 = ROTATE \/ mode w0 = SCALE ->
          selectedId (click domAfterStop c0 w0) = selectedId w0).
Proof.
  cbv zeta. repeat (split; [reflexivity|]).
  split.
  - intros []; (split; [discriminate|split; reflexivity]).
  - intros H.
    specialize (H false _ (mkClick [mkHit [0; 0] (Vector3.mk 0 0.5 0)%float] 0)
                  (or_introl (eq_refl :
                     mode (handleAddObject (mkEntropy 1700000000001 "0.k3x9q0p1zzab")
                             boxPrimitive
                             (handleAddObject (mkEntropy 1700000000000 "0.4fzyo82mvyr")
                                boxPrimitive initialWorld)) = MOVE))).
    discriminate H.
Qed.

(* ------------------------------------------------------------------ *)
(** ** The asset browser: [handleAssemble], [handleUpload] *)

Lemma fold_assembleStep (draws : nat -> Entropy) (partIds : list string) :
  forall index calls w,
    let '(_, _, w') := fold_left (assembleStep draws) partIds (index, calls, w) in
    objects w' = objects w ++ assembled draws index calls partIds
    /\ selectedParts w' = selectedParts w.
Proof.
  induction partIds as [|id rest IH]; intros index calls w; simpl.
  - now rewrite app_nil_r.
  - destruct (findPart id) as [part|].
    + specialize (IH (index + 1)%float (S calls)
                     (handleAddObject (draws calls)
                        (assembleData part (index * 1.5)%float) w)).
      destruct (fold_left _ rest _) as [[i' c'] w'].
      destruct IH as [-> ->]. simpl. now rewrite <- app_assoc.
    + apply IH.
Qed.

Lemma assembled_length (draws : nat -> Entropy) (partIds : list string) :
  forall index calls,
    (forall id, In id partIds -> findPart id <> None) ->
    List.length (assembled draws index calls partIds) = List.length partIds.
Proof.
  induction partIds as [|id rest IH]; intros index calls Hall; simpl.
  - reflexivity.
  - destruct (findPart id) eqn:E.
    + simpl. f_equal. apply IH. intros x Hx. apply Hall. now right.
    + destruct (Hall id (or_introl eq_refl) E).
Qed.

Lemma assembled_nth (draws : nat -> Entropy) (partIds : list string) :
  forall i index calls id,
    (forall x, In x partIds -> findPart x <> None) ->
    nth_error partIds i = Some id ->
    exists part,
      findPart id = Some part
      /\ nth_error (assembled draws index calls partIds) i
         = Some (newObj (draws (calls + i))
                   (assembleData part (bump i index * 1.5)%float)).
Proof.
  induction partIds as [|y rest IH]; intros i index calls id Hall Hi.
  - destruct i; discriminate.
  - simpl. destruct (findPart y) as [part|] eqn:E.
    2: { destruct (Hall y (or_introl eq_refl) E). }
    destruct i as [|i]; simpl in Hi.
    + injection Hi as <-. exists part. rewrite Nat.add_0_r. auto.
    + destruct (IH i (index + 1)%float (S calls) id) as (p & Hp & Hn); auto.
      { intros x Hx. apply Hall. now right. }
      exists p. split; [exact Hp|]. simpl.
      now rewrite Nat.add_succ_r.
Qed.

Lemma bump_small (i : nat) : i < 8 -> bump i 0%float = numberOfNat i.
Proof.
  intros H.
  do 8 (destruct i as [|i]; [reflexivity|]). lia.
Qed.

Lemma step_small (i : nat) :
  S i < 8 -> (numberOfNat (S i) * 1.5 - numberOfNat i * 1.5 = 1.5)%float.
Proof.
  intros H.
  do 7 (destruct i as [|i]; [reflexivity|]). lia.
Qed.

(** A part id of the catalog is found, and the part's name is not empty. *)
Lemma findPart_catalog (id : string) :
  In id (map DropboxFile.id SYSTEM_PARTS) ->
  exists part,
    findPart id = Some part /\ In part SYSTEM_PARTS /\ DropboxFile.id part = id
    /\ truthy (DropboxFile.name part) = true.
Proof.
  simpl. intros H.
  repeat (destruct H as [<-|H];
          [eexists; split; [reflexivity|];
           split; [simpl; tauto | split; reflexivity] |]).
  destruct H.
Qed.

(** C5.  When the selected set holds [k] ids of catalog parts,
    [handleAssemble] appends exactly [k] objects to the store, the [i]-th
    (from 0, in the set's iteration order) made by [handleAddObject] from the
    [i]-th selected part: the part's name and geometry, type primitive, the
    color [#e0e0e0], the position [(i * 1.5, 0, 0)]; consecutive objects are
    1.5 apart along x; and the selected set is empty afterwards. *)
Theorem assemble_one_object_per_part (draws : nat -> Entropy) (w : World) :
  NoDup (selectedParts w) ->
  (forall id, In id (selectedParts w) -> In id (map DropboxFile.id SYSTEM_PARTS)) ->
  let w' := handleAssemble draws w w in
  exists created,
    objects w' = objects w ++ created
    /\ List.length created = List.length (selectedParts w)
    /\ (forall i id, nth_error (selectedParts w) i = Some id ->
          exists part,
            In part SYSTEM_PARTS /\ DropboxFile.id part = id
            /\ nth_error created i
               = Some (newObj (draws i)
                         (assembleData part (numberOfNat i * 1.5)%float))
            /\ nth_error created i
               = Some (SceneObject.mk (uniqueId (draws i))
                         (DropboxFile.name part) primitive
                         (DropboxFile.geometryType part) None
                         (numberOfNat i * 1.5, 0, 0)%float
                         (0, 0, 0)%float (1, 1, 1)%float "#e0e0e0"))
    /\ (forall i o1 o2,
          nth_error created i = Some o1 -> nth_error created (S i) = Some o2 ->
          (xOf o2 - xOf o1 = 1.5)%float)
    /\ selectedParts w' = [].
Proof.
  intros Hnd Hcat. cbv zeta. unfold handleAssemble.
  pose proof (fold_assembleStep draws (selectedParts w) 0%float 0 w) as Hfold.
  destruct (fold_left _ _ _) as [[i' c'] w'].
  destruct Hfold as [Hobj _].
  assert (Hfound : forall x, In x (selectedParts w) -> findPart x <> None).
  { intros x Hx. destruct (findPart_catalog x (Hcat x Hx)) as (p & -> & _).
    discriminate. }
  assert (Hk : List.length (selectedParts w) <= 8).
  { apply (NoDup_incl_length Hnd (l' := map DropboxFile.id SYSTEM_PARTS)).
    exact Hcat. }
  assert (Hnth : forall i id, nth_error (selectedParts w) i = Some id ->
            exists part,
              In part SYSTEM_PARTS /\ DropboxFile.id part = id
              /\ truthy (DropboxFile.name part) = true
              /\ nth_error (assembled draws 0%float 0 (selectedParts w)) i
                 = Some (newObj (draws i)
                           (assembleData part (numberOfNat i * 1.5)%float))).
  { intros i id Hi.
    destruct (assembled_nth draws _ i 0%float 0 id Hfound Hi) as (part & Hp & Hn).
    destruct (findPart_catalog id (Hcat id (nth_error_In _ _ Hi)))
      as (part' & Hp' & Hin & Hid & Hname).
    rewrite Hp in Hp'. injection Hp' as <-.
    exists part. repeat (split; [assumption|]).
    rewrite Hn. simpl. rewrite bump_small; [reflexivity|].
    assert (i < List.length (selectedParts w)); [|lia].
    apply nth_error_Some. congruence. }
  exists (assembled draws 0%float 0 (selectedParts w)).
  split; [exact Hobj|].
  split; [apply assembled_length; exact Hfound|].
  split.
  { intros i id Hi. destruct (Hnth i id Hi) as (part & Hin & Hid & Hname & Hn).
    exists part. repeat (split; [assumption|]).
    rewrite Hn. unfold newObj, assembleData. simpl.
    destruct (DropboxFile.name part); [discriminate|reflexivity]. }
  split; [|reflexivity].
  intros i o1 o2 H1 H2.
  assert (Hlen : S i < List.length (selectedParts w)).
  { rewrite <- (assembled_length draws _ 0%float 0 Hfound).
    apply nth_error_Some. congruence. }
  destruct (nth_error (selectedParts w) i) as [id1|] eqn:E1.
  2: { apply nth_error_None in E1. lia. }
  destruct (nth_error (selectedParts w) (S i)) as [id2|] eqn:E2.
  2: { apply nth_error_None in E2. lia. }
  destruct (Hnth i id1 E1) as (p1 & _ & _ & _ & N1).
  destruct (Hnth (S i) id2 E2) as (p2 & _ & _ & _ & N2).
  rewrite N1 in H1. rewrite N2 in H2.
  injection H1 as <-. injection H2 as <-.
  unfold xOf, newObj, assembleData. simpl.
  apply step_small. lia.
Qed.

Lemma assemble_one_object_per_part_witness :
  let draws := fun k => mkEntropy (1700000000000 + Z.of_nat k) "0.4fzyo82mvyr" in
  let w0 := initialWorld in
  let w1 := togglePart "p3" w0 w0 in
  let w2 := togglePart "p1" w1 w1 in
  let w := togglePart "p5" w2 w2 in
  selectedParts w = ["p3"; "p1"; "p5"]
  /\ exists created,
       objects (handleAssemble draws w w) = objects w ++ created
       /\ List.length created = 3
       /\ selectedParts (handleAssemble draws w w) = [].
Proof.
  cbv zeta. split; [reflexivity|].
  destruct (assemble_one_object_per_part
              (fun k => mkEntropy (1700000000000 + Z.of_nat k) "0.4fzyo82mvyr")
              (togglePart "p5"
                 (togglePart "p1" (togglePart "p3" initialWorld initialWorld)
                    (togglePart "p3" initialWorld initialWorld))
                 (togglePart "p1" (togglePart "p3" initialWorld initialWorld)
                    (togglePart "p3" initialWorld initialWorld))))
    as (created & Hobj & Hlen & _ & _ & Hsel).
  - simpl. repeat constructor; simpl; intuition discriminate.
  - simpl. intros id [<-|[<-|[<-|[]]]]; tauto.
  - exists created. split; [exact Hobj|]. split; [exact Hlen|exact Hsel].
Defined.

(** C10.  When the change event of the upload input carries no file (the
    file list is absent or empty) [handleUpload] returns at once: the state
    is unchanged, so no object is created and no object URL allocated.  (With
    a first file it allocates one URL and adds one object.) *)
Theorem upload_without_file_is_noop (e : Entropy) (url : string) (w : World) :
  handleUpload e url None w = w
  /\ handleUpload e url (Some []) w = w
  /\ (forall files, files = None \/ files = Some [] ->
        objects (handleUpload e url files w) = objects w
        /\ objectURLs (handleUpload e url files w) = objectURLs w
        /\ measurements (handleUpload e url files w) = measurements w
        /\ selectedId (handleUpload e url files w) = selectedId w
        /\ mode (handleUpload e url files w) = mode w)
  /\ (forall f rest,
        objects (handleUpload e url (Some (f :: rest)) w)
        = objects w ++ [newObj e (uploadData f url)]
        /\ objectURLs (handleUpload e url (Some (f :: rest)) w)
           = objectURLs w ++ [(url, f)]).
Proof.
  split; [reflexivity|]. split; [reflexivity|]. split.
  - intros files [-> | ->]; repeat split.
  - intros f rest. split; reflexivity.
Qed.

(* ------------------------------------------------------------------ *)
(** ** The render bridge: [handleGenerateRender] *)

Lemma drop_last {A : Type} (l : list A) (x : A) :
  firstn (List.length l) (l ++ [x]) ++ skipn (S (List.length l)) (l ++ [x]) = l.
Proof. induction l as [|a l IH]; simpl; [reflexivity|]. f_equal. exact IH. Qed.

(** The call started last settles: its handler resumes in the state without
    that call. *)
Lemma settle_last (o : Outcome) (w : World) (req : RenderRequest) :
  settle (List.length (inFlight w)) o (setInFlight (fun rs => rs ++ [req]) w)
  = resumeGenerateRender o w.
Proof.
  unfold settle. cbn [inFlight setInFlight].
  rewrite nth_error_app2 by lia. rewrite Nat.sub_diag. cbn [nth_error].
  f_equal. unfold setInFlight.
  cbn [objects selectedId mode background measurements watermark isRendering
       renderResult canvasRef selectedParts measuringStart alerts
       consoleErrors objectURLs inFlight].
  rewrite drop_last. apply world_eta.
Qed.

(** C6.  However the render call settles, the handler resumes and leaves the
    rendering flag false.  On rejection the error is caught: exactly one
    alert with the text "Rendering failed. Please try again." is shown, the
    error is logged once, and the render result is left as it was (unset if
    it was unset); on fulfilment the result is stored and nothing is alerted
    or logged.  A failure of the capture before the call is handled the same
    way.  Nothing else of the state changes. *)
Theorem render_settles_flag_cleared (o : Outcome) (w : World) :
  let w' := resumeGenerateRender o w in
  isRendering w' = false
  /\ match o with
     | Rejected err =>
         alerts w' = alerts w ++ ["Rendering failed. Please try again."]
         /\ consoleErrors w' = consoleErrors w ++ [err]
         /\ renderResult w' = renderResult w
         /\ (renderResult w = None -> renderResult w' = None)
     | Fulfilled result =>
         renderResult w' = Some result
         /\ alerts w' = alerts w
         /\ consoleErrors w' = consoleErrors w
     end
  /\ objects w' = objects w /\ selectedId w' = selectedId w /\ mode w' = mode w
  /\ measurements w' = measurements w
  /\ (forall canvas, canvasRef w = Some canvas ->
        match toDataURL canvas with
        | Normal dataUrl =>
            exists req,
              handleGenerateRender w w
              = (setInFlight (fun rs => rs ++ [req]) (setIsRendering true w),
                 Some req)
              /\ imageData req = dataUrl
              /\ let done :=
                   settle (List.length (inFlight w)) o
                     (fst (handleGenerateRender w w)) in
                 done = resumeGenerateRender o (setIsRendering true w)
                 /\ isRendering done = false
                 /\ inFlight done = inFlight w
        | Throw err =>
            exists w1,
              handleGenerateRender w w = (w1, None)
              /\ isRendering w1 = false
              /\ alerts w1 = alerts w ++ ["Rendering failed. Please try again."]
              /\ consoleErrors w1 = consoleErrors w ++ [err]
              /\ renderResult w1 = renderResult w
              /\ inFlight w1 = inFlight w
        end).
Proof.
  cbv zeta. split; [reflexivity|]. split.
  { destruct o as [result|err]; simpl; repeat split. auto. }
  repeat (split; [destruct o; reflexivity|]).
  intros canvas Hc. unfold handleGenerateRender. rewrite Hc.
  destruct (toDataURL canvas) as [dataUrl|err].
  - eexists. split; [reflexivity|]. split; [reflexivity|].
    cbv zeta. cbn [fst].
    change (List.length (inFlight w))
      with (List.length (inFlight (setIsRendering true w))).
    rewrite settle_last.
    split; [reflexivity|]. destruct o; split; reflexivity.
  - eexists. split; [reflexivity|]. repeat split.
Qed.

(** C7, as the code has it.  The "Generate Render" button is never disabled
    and its handler does not look at the rendering flag.  While the flag is
    set the full-screen modal is shown, and a pointer click cannot reach the
    button; but whenever the canvas is mounted and its capture succeeds, a
    click delivered to the button from the keyboard sets the flag and starts
    one more render call, whether or not one is outstanding (and so does a
    pointer click while the modal is not shown). *)
Theorem generate_render_starts_a_call (w : World)
  (canvas : HTMLCanvasElement) (dataUrl : string) :
  canvasRef w = Some canvas ->
  toDataURL canvas = Normal dataUrl ->
  disabled (generateRenderButton (mode w) (watermark w)) = false
  /\ (exists req,
        inFlight (activateGenerateRender Keyboard w) = inFlight w ++ [req]
        /\ imageData req = dataUrl)
  /\ List.length (inFlight (activateGenerateRender Keyboard w))
     = S (List.length (inFlight w))
  /\ isRendering (activateGenerateRender Keyboard w) = true
  /\ modalShown (activateGenerateRender Keyboard w) = true
  /\ (modalShown w = false ->
        activateGenerateRender Pointer w = activateGenerateRender Keyboard w)
  /\ (modalShown w = true -> activateGenerateRender Pointer w = w)
  /\ (forall w0, isRendering w0 = true -> modalShown w0 = true).
Proof.
  intros Hc Hd. unfold activateGenerateRender, handleGenerateRender. simpl.
  rewrite Hc, Hd. simpl.
  split; [reflexivity|].
  split; [eexists; split; reflexivity|].
  split; [rewrite length_app; simpl; lia|].
  split; [reflexivity|]. split; [reflexivity|].
  split; [intros ->; reflexivity|].
  split; [intros ->; reflexivity|].
  intros w0 H. unfold modalShown. now rewrite H.
Qed.

Lemma generate_render_starts_a_call_witness :
  let w1 := activateGenerateRender Pointer
              (mountCanvas (mkCanvas (Normal "data:image/png;base64,iVBORw0KGgo="))
                 initialWorld) in
  isRendering w1 = true
  /\ List.length (inFlight w1) = 1
  /\ List.length (inFlight (activateGenerateRender Keyboard w1)) = 2.
Proof.
  cbv zeta. split; [reflexivity|]. split; [reflexivity|].
  refine (proj1 (proj2 (proj2
    (generate_render_starts_a_call _
       (mkCanvas (Normal "data:image/png;base64,iVBORw0KGgo=")) _ _ _)))).
  - reflexivity.
  - reflexivity.
Defined.

(** While a render call is outstanding and the rendering flag is set, the
    button is enabled, and activating it from the keyboard starts a second
    call: two calls are in flight. *)
Lemma second_render_call_starts_while_rendering :
  let w0 := mountCanvas (mkCanvas (Normal "data:image/png;base64,iVBORw0KGgo="))
              initialWorld in
  let w1 := activateGenerateRender Pointer w0 in
  let w2 := activateGenerateRender Keyboard w1 in
  isRendering w1 = true
  /\ List.length (inFlight w1) = 1
  /\ disabled (generateRenderButton (mode w1) (watermark w1)) = false
  /\ List.length (inFlight w2) = 2
  /\ ~ (forall w, isRendering w = true ->
          disabled (generateRenderButton (mode w) (watermark w)) = true)
  /\ ~ (forall via w, isRendering w = true ->
          inFlight (activateGenerateRender via w) = inFlight w).
Proof.
  cbv zeta. repeat (split; [reflexivity|]).
  split.
  - intros H. specialize (H (setIsRendering true initialWorld) eq_refl).
    discriminate H.
  - intros H.
    specialize (H Keyboard
                  (activateGenerateRender Pointer
                     (mountCanvas
                        (mkCanvas (Normal "data:image/png;base64,iVBORw0KGgo="))
                        initialWorld))
                  eq_refl).
    discriminate H.
Qed.

(* ================================================================== *)
(** * Further properties of the components *)

(* ------------------------------------------------------------------ *)
(** ** The part selection: [togglePart] *)

Lemma has_In (s : list string) (x : string) : has s x = true <-> In x s.
Proof.
  unfold has. rewrite existsb_exists. split.
  - intros (y & Hy & E). apply String.eqb_eq in E. now subst.
  - intros H. exists x. split; [exact H | apply String.eqb_refl].
Qed.

Lemma has_app (s t : list string) (x : string) :
  has (s ++ t) x = has s x || has t x.
Proof. unfold has. apply existsb_app. Qed.

Lemma has_remove (s : list string) (id x : string) :
  has (filter (fun y => negb (String.eqb y id)) s) x
  = has s x && negb (String.eqb x id).
Proof.
  apply eq_true_iff_eq.
  rewrite andb_true_iff, !has_In, filter_In. reflexivity.
Qed.

Lemma remove_absent (s : list string) (id : string) :
  has s id = false -> filter (fun y => negb (String.eqb y id)) s = s.
Proof.
  induction s as [|y s IH]; simpl; [reflexivity|].
  intros H. apply orb_false_elim in H as [Hy Hs].
  rewrite String.eqb_sym in Hy. rewrite Hy. simpl. f_equal. auto.
Qed.

Lemma togglePart_selectedParts (id : string) (w : World) :
  selectedParts (togglePart id w w)
  = if has (selectedParts w) id
    then filter (fun x => negb (String.eqb x id)) (selectedParts w)
    else selectedParts w ++ [id].
Proof. reflexivity. Qed.

(** X1.  [togglePart id] flips whether [id] is selected and nothing else: the
    other ids keep their status, the selection stays free of duplicates, and
    the rest of the state is untouched.  Toggling the same id twice gives the
    same set again (the very same state when the id was not selected). *)
Theorem togglePart_flips_one_id (id : string) (w : World) :
  NoDup (selectedParts w) ->
  let w1 := togglePart id w w in
  let w2 := togglePart id w1 w1 in
  NoDup (selectedParts w1)
  /\ has (selectedParts w1) id = negb (has (selectedParts w) id)
  /\ (forall x, x <> id -> has (selectedParts w1) x = has (selectedParts w) x)
  /\ w1 = setSelectedParts (selectedParts w1) w
  /\ (forall x, has (selectedParts w2) x = has (selectedParts w) x)
  /\ (has (selectedParts w) id = false -> w2 = w).
Proof.
  intros Hnd. cbv zeta.
  assert (Hmem : forall v x,
            has (selectedParts (togglePart id v v)) x
            = if String.eqb x id then negb (has (selectedParts v) id)
              else has (selectedParts v) x).
  { intros v x. rewrite togglePart_selectedParts.
    destruct (has (selectedParts v) id) eqn:Hid.
    - rewrite has_remove. destruct (String.eqb_spec x id) as [->|Hx]; simpl.
      + now rewrite andb_false_r.
      + now rewrite andb_true_r.
    - rewrite has_app. simpl. rewrite orb_false_r.
      destruct (String.eqb_spec x id) as [->|Hx]; simpl.
      + rewrite Hid. reflexivity.
      + destruct (String.eqb_spec id x) as [E|_]; [now subst|].
        now rewrite orb_false_r. }
  split.
  { rewrite togglePart_selectedParts.
    destruct (has (selectedParts w) id) eqn:Hid.
    - now apply NoDup_filter.
    - apply NoDup_app; [exact Hnd | repeat constructor; intros [] |].
      intros x Hx [<-|[]]. apply has_In in Hx. congruence. }
  split; [rewrite Hmem, String.eqb_refl; reflexivity|].
  split.
  { intros x Hx. rewrite Hmem. destruct (String.eqb_spec x id); [contradiction|reflexivity]. }
  split; [reflexivity|].
  split.
  { intros x. rewrite !Hmem. destruct (String.eqb x id) eqn:E; [|reflexivity].
    apply String.eqb_eq in E. subst. rewrite String.eqb_refl.
    now rewrite negb_involutive. }
  intros Hid.
  assert (E : selectedParts (togglePart id (togglePart id w w) (togglePart id w w))
              = selectedParts w).
  { rewrite (togglePart_selectedParts id (togglePart id w w)).
    rewrite (Hmem w id), String.eqb_refl, Hid. simpl negb. cbv iota.
    rewrite togglePart_selectedParts, Hid, filter_app. simpl.
    rewrite String.eqb_refl. simpl.
    now rewrite app_nil_r, (remove_absent _ _ Hid). }
  change (togglePart id (togglePart id w w) (togglePart id w w))
    with (setSelectedParts
            (selectedParts (togglePart id (togglePart id w w) (togglePart id w w)))
            w).
  rewrite E. apply world_eta.
Qed.

Lemma togglePart_flips_one_id_witness :
  let w := togglePart "p1" (togglePart "p3" initialWorld initialWorld)
             (togglePart "p3" initialWorld initialWorld) in
  selectedParts w = ["p3"; "p1"]
  /\ selectedParts (togglePart "p3" w w) = ["p1"]
  /\ NoDup (selectedParts (togglePart "p3" w w)).
Proof.
  cbv zeta. split; [reflexivity|]. split; [reflexivity|].
  refine (proj1 (togglePart_flips_one_id "p3" _ _)).
  simpl. repeat constructor; simpl; intuition discriminate.
Defined.

(* ------------------------------------------------------------------ *)
(** ** [handleAssemble] as a batch of [handleAddObject] calls *)

Lemma fold_assembleStep_calls (draws : nat -> Entropy) (partIds : list string) :
  forall index calls w,
    snd (fold_left (assembleStep draws) partIds (index, calls, w))
    = addObjects (assembleCalls draws index calls partIds) w.
Proof.
  induction partIds as [|id rest IH]; intros index calls w; simpl.
  - reflexivity.
  - destruct (findPart id) as [part|]; simpl; apply IH.
Qed.

Lemma assembleCalls_known (draws : nat -> Entropy) (partIds : list string) :
  forall index calls,
    assembleCalls draws index calls partIds
    = assembleCalls draws index calls (filter knownPart partIds).
Proof.
  induction partIds as [|id rest IH]; intros index calls; simpl.
  - reflexivity.
  - unfold knownPart at 1. destruct (findPart id) as [part|] eqn:E; simpl.
    + rewrite E. f_equal. apply IH.
    + apply IH.
Qed.

Lemma assembleCalls_length (draws : nat -> Entropy) (partIds : list string) :
  forall index calls,
    List.length (assembleCalls draws index calls partIds)
    = List.length (filter knownPart partIds).
Proof.
  induction partIds as [|id rest IH]; intros index calls; simpl.
  - reflexivity.
  - unfold knownPart at 1. destruct (findPart id); simpl; [f_equal|]; apply IH.
Qed.

Lemma filter_idem {A : Type} (f : A -> bool) (l : list A) :
  filter f (filter f l) = filter f l.
Proof.
  induction l as [|a l IH]; simpl; [reflexivity|].
  destruct (f a) eqn:Ha; simpl; [rewrite Ha, IH|]; auto.
Qed.

(** What a batch of [handleAddObject] calls leaves of the state: the store
    with the new objects appended, the selection and the mode; nothing else
    changes. *)
Lemma addObjects_frame (calls : list (Entropy * PartialSceneObject.t)) :
  forall w,
    addObjects calls w
    = setMode (mode (addObjects calls w))
        (setSelectedId (selectedId (addObjects calls w))
           (setObjects
              (fun prev => prev ++ map (fun c => newObj (fst c) (snd c)) calls) w)).
Proof.
  unfold addObjects.
  induction calls as [|c calls IH]; intros w; simpl.
  - unfold setMode, setSelectedId, setObjects. simpl.
    rewrite app_nil_r. symmetry. apply world_eta.
  - rewrite IH at 1. unfold setMode, setSelectedId, setObjects. simpl.
    now rewrite <- app_assoc.
Qed.

Lemma addObjects_last (calls : list (Entropy * PartialSceneObject.t))
  (c : Entropy * PartialSceneObject.t) (w : World) :
  selectedId (addObjects (calls ++ [c]) w) = Some (uniqueId (fst c))
  /\ mode (addObjects (calls ++ [c]) w) = MOVE.
Proof.
  unfold addObjects. rewrite fold_left_app. simpl. auto.
Qed.

(** X2.  [handleAssemble] is the batch of [handleAddObject] calls for the
    selected ids that name a catalog part, in iteration order, followed by
    clearing the selected set: an id that names no part is skipped and takes
    no offset slot.  If at least one object is created the last one is
    selected and the mode is [MOVE]; otherwise selection and mode stay. *)
Theorem assemble_is_a_batch_of_adds (draws : nat -> Entropy) (w : World) :
  let known := filter knownPart (selectedParts w) in
  let calls := assembleCalls draws 0%float 0 known in
  let w' := handleAssemble draws w w in
  w' = setSelectedParts [] (addObjects calls w)
  /\ List.length calls = List.length known
  /\ objects w' = objects w ++ map (fun c => newObj (fst c) (snd c)) calls
  /\ List.length (objects w') = List.length (objects w) + List.length known
  /\ (known = [] -> w' = setSelectedParts [] w)
  /\ (known <> [] -> selectedId w' = lastId (objects w') /\ mode w' = MOVE).
Proof.
  cbv zeta.
  assert (E : handleAssemble draws w w
              = setSelectedParts []
                  (addObjects
                     (assembleCalls draws 0%float 0
                        (filter knownPart (selectedParts w))) w)).
  { unfold handleAssemble.
    pose proof (fold_assembleStep_calls draws (selectedParts w) 0%float 0 w) as H.
    destruct (fold_left _ _ _) as [[i c] w']. simpl in H. rewrite H.
    now rewrite assembleCalls_known. }
  assert (Hobj : objects (handleAssemble draws w w)
                 = objects w
                   ++ map (fun c => newObj (fst c) (snd c))
                        (assembleCalls draws 0%float 0
                           (filter knownPart (selectedParts w)))).
  { rewrite E. simpl. apply addObjects_objects. }
  assert (Hlen : List.length
                   (assembleCalls draws 0%float 0
                      (filter knownPart (selectedParts w)))
                 = List.length (filter knownPart (selectedParts w))).
  { now rewrite assembleCalls_length, filter_idem. }
  split; [exact E|]. split; [exact Hlen|]. split; [exact Hobj|].
  split; [rewrite Hobj, length_app, length_map, Hlen; reflexivity|].
  split.
  - intros Hk. rewrite E, Hk. reflexivity.
  - intros Hk. rewrite Hobj. rewrite E. simpl.
    assert (Hne : assembleCalls draws 0%float 0
                    (filter knownPart (selectedParts w)) <> []).
    { intros Hnil. rewrite Hnil in Hlen.
      destruct (filter knownPart (selectedParts w)); [contradiction|discriminate]. }
    destruct (exists_last Hne) as (l & x & ->).
    destruct (addObjects_last l x w) as [-> ->].
    split; [|reflexivity].
    unfold lastId. rewrite map_app, app_assoc, rev_app_distr. reflexivity.
Qed.

(* ------------------------------------------------------------------ *)
(** ** [handleUpdateObject] and the gizmo's write-back *)

Lemma setObjects_ext (f g : list SceneObject.t -> list SceneObject.t) (w : World) :
  f (objects w) = g (objects w) -> setObjects f w = setObjects g w.
Proof. unfold setObjects. now intros ->. Qed.

Lemma setObjects_same (f : list SceneObject.t -> list SceneObject.t) (w : World) :
  f (objects w) = objects w -> setObjects f w = w.
Proof. unfold setObjects. intros ->. apply world_eta. Qed.

Lemma setObjects_setObjects (f g : list SceneObject.t -> list SceneObject.t)
  (w : World) :
  setObjects f (setObjects g w) = setObjects (fun prev => f (g prev)) w.
Proof. reflexivity. Qed.

Lemma spread_id (o : SceneObject.t) (u : PartialSceneObject.t) :
  PartialSceneObject.id u = None -> SceneObject.id (spread o u) = SceneObject.id o.
Proof. unfold spread. simpl. now intros ->. Qed.

Lemma spread_idem (o : SceneObject.t) (u : PartialSceneObject.t) :
  spread (spread o u) u = spread o u.
Proof.
  destruct u as [i n t g f p r s c]. unfold spread. simpl.
  destruct i, n, t, g, f, p, r, s, c; reflexivity.
Qed.

Lemma spread_empty (o : SceneObject.t) : spread o PartialSceneObject.empty = o.
Proof. destruct o; reflexivity. Qed.

(** X3.  An update that does not set [id] keeps the ids of the store, entry
    by entry; applying it twice is the same as applying it once; two such
    updates aimed at different ids can be applied in either order; and the
    empty update changes nothing. *)
Theorem updateObject_keeps_ids_idempotent_commutes
  (i j : string) (u v : PartialSceneObject.t) (w : World) :
  PartialSceneObject.id u = None ->
  PartialSceneObject.id v = None ->
  ids (objects (handleUpdateObject i u w)) = ids (objects w)
  /\ handleUpdateObject i u (handleUpdateObject i u w) = handleUpdateObject i u w
  /\ (i <> j ->
      handleUpdateObject i u (handleUpdateObject j v w)
      = handleUpdateObject j v (handleUpdateObject i u w))
  /\ handleUpdateObject i PartialSceneObject.empty w = w.
Proof.
  intros Hu Hv. unfold handleUpdateObject.
  split.
  { simpl. unfold ids. rewrite map_map. apply map_ext.
    intros o. destruct (String.eqb (SceneObject.id o) i); [|reflexivity].
    now apply spread_id. }
  split.
  { rewrite setObjects_setObjects.
    apply setObjects_ext. rewrite map_map. apply map_ext.
    intros o. destruct (String.eqb_spec (SceneObject.id o) i) as [E|E].
    - rewrite (spread_id o u Hu), E, String.eqb_refl. apply spread_idem.
    - destruct (String.eqb_spec (SceneObject.id o) i); [contradiction|reflexivity]. }
  split.
  { intros Hij. rewrite !setObjects_setObjects.
    apply setObjects_ext. rewrite !map_map. apply map_ext.
    intros o. cbv beta.
    destruct (String.eqb_spec (SceneObject.id o) i) as [Ei|Ei];
      destruct (String.eqb_spec (SceneObject.id o) j) as [Ej|Ej];
      rewrite ?(spread_id o u Hu), ?(spread_id o v Hv);
      repeat match goal with
             | |- context [String.eqb ?a ?b] => destruct (String.eqb_spec a b)
             end;
      try reflexivity; try contradiction; congruence. }
  apply setObjects_same.
  rewrite (map_ext _ (fun o => o)); [apply map_id|].
  intros o. rewrite spread_empty. now destruct (String.eqb _ _).
Qed.

Lemma updateObject_keeps_ids_idempotent_commutes_witness :
  let w := handleAddObject (mkEntropy 1700000000001 "0.k3x9q0p1zzab") boxPrimitive
             (handleAddObject (mkEntropy 1700000000000 "0.4fzyo82mvyr")
                boxPrimitive initialWorld) in
  let u := single f_color "#ff0000" in
  let v := single f_position (1, 2, 3)%float in
  ids (objects (handleUpdateObject "1700000000000-4fzyo82mv" u w))
  = ["1700000000000-4fzyo82mv"; "1700000000001-k3x9q0p1z"].
Proof.
  cbv zeta.
  refine (eq_trans
    (proj1 (updateObject_keeps_ids_idempotent_commutes
              "1700000000000-4fzyo82mv" "1700000000001-k3x9q0p1z"
              (single f_color "#ff0000") (single f_position (1, 2, 3)%float)
              _ eq_refl eq_refl)) _).
  reflexivity.
Defined.

(** X4.  The gizmo's [onObjectChange] writes the mesh's position, rotation
    angles and scale into every entry with the object's id and into nothing
    else: each entry keeps its place, id, name, type, geometry, file URL and
    color; entries with another id and everything outside the store are
    untouched; without a mesh ref nothing happens. *)
Theorem gizmo_writes_back_transform_only
  (meshRef : option MeshState) (objId : string) (w : World) :
  let w' := onObjectChange meshRef objId w in
  ids (objects w') = ids (objects w)
  /\ w' = setObjects (fun _ => objects w') w
  /\ (meshRef = None -> w' = w)
  /\ (forall k o, nth_error (objects w) k = Some o ->
        exists o', nth_error (objects w') k = Some o'
          /\ SceneObject.id o' = SceneObject.id o
          /\ SceneObject.name o' = SceneObject.name o
          /\ SceneObject.type o' = SceneObject.type o
          /\ SceneObject.geometryType o' = SceneObject.geometryType o
          /\ SceneObject.fileUrl o' = SceneObject.fileUrl o
          /\ SceneObject.color o' = SceneObject.color o
          /\ (SceneObject.id o <> objId -> o' = o)
          /\ (forall m, meshRef = Some m -> SceneObject.id o = objId ->
                SceneObject.position o' = Vector3.toArray (meshPosition m)
                /\ SceneObject.rotation o'
                   = (Vector3.x (meshRotation m), Vector3.y (meshRotation m),
                      Vector3.z (meshRotation m))
                /\ SceneObject.scale o' = Vector3.toArray (meshScale m))).
Proof.
  cbv zeta. destruct meshRef as [m|]; simpl.
  2: { split; [reflexivity|]. split; [symmetry; apply setObjects_same; reflexivity|].
       split; [reflexivity|]. intros k o Hk. exists o.
       split; [exact Hk|]. do 6 (split; [reflexivity|]).
       split; [reflexivity|]. intros m' Hm. discriminate. }
  split.
  { unfold ids. rewrite map_map. apply map_ext. intros o.
    now destruct (String.eqb (SceneObject.id o) objId). }
  split; [reflexivity|]. split; [discriminate|].
  intros k o Hk. rewrite nth_error_map, Hk. simpl.
  eexists. split; [reflexivity|].
  destruct (String.eqb_spec (SceneObject.id o) objId) as [E|E].
  - do 6 (split; [reflexivity|]). split; [contradiction|].
    intros m' Hm _. injection Hm as <-. repeat split.
  - do 6 (split; [reflexivity|]). split; [reflexivity|].
    intros m' _ Eid. contradiction.
Qed.

(* ------------------------------------------------------------------ *)
(** ** The gizmo in the scene *)

Lemma SceneItem_gizmos (obj : SceneObject.t) (sel : bool) (m : ToolMode) :
  filter isGizmo (SceneItem obj sel m)
  = if showsTransformControls sel m then [Node (Some gizmoGeometry) None []] else [].
Proof.
  unfold SceneItem, showsTransformControls.
  assert (Hmesh : isGizmo (Node (Some (sceneItemGeometry obj))
                             (Some (SceneItemClick (SceneObject.id obj))) []) = false).
  { unfold isGizmo, sceneItemGeometry. simpl.
    destruct (SceneObject.type obj); [|reflexivity].
    destruct (SceneObject.geometryType obj) as [[]|]; reflexivity. }
  destruct (sel && negb (ToolMode_eqb m SELECT) && negb (ToolMode_eqb m MEASURE));
    simpl; rewrite Hmesh; reflexivity.
Qed.

Lemma stage_gizmo_count (w : World) :
  List.length (filter isGizmo (stageChildren w))
  = List.length
      (filter (fun obj => showsTransformControls (isSelectedIn w obj) (mode w))
         (objects w)).
Proof.
  unfold stageChildren. rewrite filter_app, length_app. simpl. rewrite Nat.add_0_r.
  induction (objects w) as [|obj os IH]; simpl; [reflexivity|].
  rewrite filter_app, length_app, IH, SceneItem_gizmos.
  unfold isSelectedIn.
  destruct (showsTransformControls _ _); reflexivity.
Qed.

Lemma unique_id_count (os : list SceneObject.t) (p : SceneObject.t -> bool) (s : string) :
  NoDup (ids os) ->
  (forall o, p o = true -> SceneObject.id o = s) ->
  List.length (filter p os) <= 1.
Proof.
  intros Hnd Hp. induction os as [|o os IH]; simpl; [lia|].
  inversion Hnd as [|x l Hnotin Hnd']; subst.
  destruct (p o) eqn:Ho; [|auto].
  simpl. assert (E : filter p os = []).
  { destruct (filter p os) as [|o' r] eqn:Ef; [reflexivity|].
    assert (Hin : In o' (filter p os)) by (rewrite Ef; now left).
    apply filter_In in Hin as [Hin Hpo'].
    exfalso. apply Hnotin. rewrite (Hp o Ho), <- (Hp o' Hpo').
    unfold ids. now apply in_map. }
  rewrite E. simpl. lia.
Qed.

(** X5.  The scene holds one [TransformControls] gizmo per object whose id is
    the selected id, and only while the mode is move, rotate or scale; so
    there is none in select or measure mode or without a selection, and at
    most one when the ids of the store are pairwise distinct.  In the three
    modes that show it, the gizmo's own mode tells the tool mode. *)
Theorem gizmo_follows_selection_and_mode (w : World) :
  List.length (filter isGizmo (stageChildren w))
  = List.length
      (filter (fun obj => showsTransformControls (isSelectedIn w obj) (mode w))
         (objects w))
  /\ (mode w = SELECT \/ mode w = MEASURE \/ selectedId w = None ->
      filter isGizmo (stageChildren w) = [])
  /\ (NoDup (ids (objects w)) ->
      List.length (filter isGizmo (stageChildren w)) <= 1)
  /\ (forall objId,
        gizmoRendered objId w = true <->
        (exists obj, In obj (objects w) /\ SceneObject.id obj = objId)
        /\ selectedId w = Some objId
        /\ (mode w = MOVE \/ mode w = ROTATE \/ mode w = SCALE))
  /\ (forall m1 m2,
        showsTransformControls true m1 = true ->
        showsTransformControls true m2 = true ->
        transformControlsMode m1 = transformControlsMode m2 -> m1 = m2).
Proof.
  split; [apply stage_gizmo_count|].
  assert (Hnone : mode w = SELECT \/ mode w = MEASURE \/ selectedId w = None ->
                  filter isGizmo (stageChildren w) = []).
  { intros H. apply length_zero_iff_nil. rewrite stage_gizmo_count.
    apply length_zero_iff_nil.
    induction (objects w) as [|o os IH]; simpl; [reflexivity|].
    replace (showsTransformControls (isSelectedIn w o) (mode w)) with false; [exact IH|].
    unfold showsTransformControls, isSelectedIn.
    destruct H as [-> | [-> | ->]]; simpl;
      try (now rewrite andb_false_r). reflexivity. }
  split; [exact Hnone|].
  split.
  { intros Hnd.
    destruct (selectedId w) as [s|] eqn:Hs;
      [rewrite stage_gizmo_count | rewrite Hnone; simpl; auto].
    apply (unique_id_count _ _ s Hnd).
    intros o Ho. unfold showsTransformControls, isSelectedIn in Ho.
    rewrite Hs in Ho. simpl in Ho.
    apply andb_prop in Ho as [Ho _]. apply andb_prop in Ho as [Ho _].
    now apply String.eqb_eq.
  }
  split.
  { intros objId. unfold gizmoRendered, showsTransformControls.
    rewrite !andb_true_iff, existsb_exists. split.
    - intros [(obj & Hin & E) [[Hsel Hm1] Hm2]].
      apply String.eqb_eq in E.
      split; [eauto|]. split.
      + destruct (selectedId w) as [s|]; simpl in Hsel; [|discriminate].
        apply String.eqb_eq in Hsel. now subst.
      + destruct (mode w); simpl in *; try discriminate; auto.
    - intros [(obj & Hin & E) [Hsel Hm]].
      split; [exists obj; split; [exact Hin | now apply String.eqb_eq]|].
      rewrite Hsel. simpl. rewrite String.eqb_refl.
      destruct Hm as [-> | [-> | ->]]; repeat split. }
  intros m1 m2 H1 H2 E.
  destruct m1, m2; simpl in *; try discriminate; reflexivity.
Qed.

(* ------------------------------------------------------------------ *)
(** ** Clicks on the viewport, in every mode *)

Lemma everyNode_here (p : Object3D -> bool) (n : Object3D) :
  everyNode p n = true -> p n = true /\ forallb (everyNode p) (childrenOf n) = true.
Proof. destruct n as [g h c]. simpl. apply andb_prop. Qed.

Lemma lineage_everyNode (p : Object3D -> bool) (path : list nat) :
  forall nodes l,
    forallb (everyNode p) nodes = true ->
    lineage nodes path = Some l ->
    Forall (fun n => p n = true) l.
Proof.
  induction path as [|i rest IH]; intros nodes l Hall Hl; simpl in Hl.
  - discriminate.
  - destruct (nth_error nodes i) as [n|] eqn:Hn; [|discriminate].
    assert (Hp : everyNode p n = true).
    { rewrite forallb_forall in Hall. apply Hall. eapply nth_error_In; eauto. }
    apply everyNode_here in Hp as [Hp Hc].
    destruct rest as [|j r].
    + injection Hl as <-. repeat constructor. exact Hp.
    + destruct (lineage (childrenOf n) (j :: r)) as [l'|] eqn:Hl'; [|discriminate].
      injection Hl as <-. apply Forall_app. split; [eapply IH; eauto|].
      repeat constructor. exact Hp.
Qed.

Lemma scene_handlers_of_store (w : World) :
  forallb (everyNode (handlerOfStore (objects w))) (scene w) = true.
Proof.
  unfold scene. rewrite !forallb_app. simpl.
  assert (Hstage : forallb (everyNode (handlerOfStore (objects w)))
                     (stageChildren w) = true).
  { unfold stageChildren. rewrite forallb_app. simpl. rewrite andb_true_r.
    apply forallb_forall. intros n Hn.
    apply in_flat_map in Hn as (obj & Hobj & Hn).
    unfold SceneItem in Hn. apply in_app_or in Hn as [Hn|[<-|[]]].
    - destruct (_ && _ && _); [|destruct Hn].
      destruct Hn as [<-|[]]. reflexivity.
    - simpl. unfold handlerOfStore. simpl. rewrite andb_true_r.
      apply existsb_exists. exists obj. split; [exact Hobj|apply String.eqb_refl]. }
  rewrite Hstage. simpl.
  assert (Hlines : forallb (everyNode (handlerOfStore (objects w)))
                     (MeasurementLines (measurements w)) = true).
  { induction (measurements w) as [|m ms IH]; simpl; auto. }
  rewrite Hlines. simpl.
  destruct (measuringStart w); reflexivity.
Qed.

(** A handler a click can reach is the [onClick] of the scene item of an
    object of the store. *)
Lemma reachable_handlers_store (w : World) (c : Click)
  (h : ClickHandler) (e : ThreeEvent) :
  In (h, e) (flat_map (handlersOfHit (scene w)) (hits c)) ->
  exists obj, In obj (objects w) /\ h = SceneItemClick (SceneObject.id obj).
Proof.
  intros Hin. destruct (reachable_handlers_click w c h e Hin) as [objId ->].
  apply in_flat_map in Hin as (hit & _ & Hin).
  unfold handlersOfHit in Hin.
  destruct (lineage (scene w) (hitPath hit)) as [l|] eqn:Hl; [|destruct Hin].
  pose proof (lineage_everyNode _ _ _ _ (scene_handlers_of_store w) Hl) as Hall.
  destruct l as [|t anc]; [destruct Hin|].
  destruct (raycastable t); [|destruct Hin].
  apply in_flat_map in Hin as (n & Hn & Hh).
  rewrite Forall_forall in Hall. specialize (Hall n Hn).
  unfold handlerOfStore in Hall.
  destruct (onClickOf n) as [h'|]; [|destruct Hh].
  destruct Hh as [Hh|[]]. injection Hh as -> _.
  apply existsb_exists in Hall as (obj & Hobj & E).
  apply String.eqb_eq in E. exists obj. split; [exact Hobj|now subst].
Qed.

Lemma setSelectedId_same (w : World) : setSelectedId (selectedId w) w = w.
Proof. apply world_eta. Qed.

(** X6.  Whatever the mode and wherever it lands, a click on the viewport
    changes nothing but the selection, and the selection after it is the one
    before, or empty, or the id of an object of the store. *)
Theorem click_changes_only_the_selection
  (domAfterStop : bool) (c : Click) (w : World) :
  let w' := click domAfterStop c w in
  w' = setSelectedId (selectedId w') w
  /\ (selectedId w' = selectedId w
      \/ selectedId w' = None
      \/ exists obj, In obj (objects w)
                     /\ selectedId w' = Some (SceneObject.id obj)).
Proof.
  cbv zeta. unfold click.
  destruct (flat_map (handlersOfHit (scene w)) (hits c)) as [|[h e] rest] eqn:Hhs.
  - simpl. unfold canvasOnClick. destruct (mode w); simpl;
      (split; [try reflexivity; symmetry; apply setSelectedId_same | auto]).
  - destruct (reachable_handlers_store w c h e) as (obj & Hobj & ->).
    { rewrite Hhs. now left. }
    simpl. unfold sceneItemOnSelect, canvasOnClick.
    destruct (mode w), domAfterStop; simpl;
      (split; [try reflexivity; symmetry; apply setSelectedId_same | eauto]).
Qed.

(** X7.  In select mode a click that reaches no scene item clears the
    selection.  A click offered first to the mesh of an object selects that
    object if the canvas element's own [onClick] does not run once a scene
    handler has stopped the propagation; if it does run, it runs last and the
    click leaves nothing selected. *)
Theorem select_mode_click (c : Click) (w : World) :
  mode w = SELECT ->
  (flat_map (handlersOfHit (scene w)) (hits c) = [] ->
     forall domAfterStop, click domAfterStop c w = setSelectedId None w)
  /\ (forall objId e more,
        flat_map (handlersOfHit (scene w)) (hits c)
        = (SceneItemClick objId, e) :: more ->
        click false c w = setSelectedId (Some objId) w
        /\ click true c w = setSelectedId None w).
Proof.
  intros Hm. split.
  - intros Hhs dom. unfold click. rewrite Hhs. simpl.
    unfold canvasOnClick. rewrite Hm. now destruct dom.
  - intros objId e more Hhs. unfold click. rewrite Hhs. simpl.
    unfold sceneItemOnSelect, canvasOnClick. rewrite Hm. split; reflexivity.
Qed.

Lemma select_mode_click_witness :
  let w := setMode SELECT
             (handleAddObject (mkEntropy 1700000000000 "0.4fzyo82mvyr")
                boxPrimitive initialWorld) in
  let c := mkClick [mkHit [0; 0] (Vector3.mk 0 0.5 0)%float] 1700000000100 in
  mode w = SELECT
  /\ selectedId (click false c w) = Some "1700000000000-4fzyo82mv"
  /\ selectedId (click true c w) = None
  /\ selectedId (click false (mkClick [] 1700000000200) w) = None.
Proof.
  cbv zeta. split; [reflexivity|].
  pose proof (select_mode_click
                (mkClick [mkHit [0; 0] (Vector3.mk 0 0.5 0)%float] 1700000000100)
                (setMode SELECT
                   (handleAddObject (mkEntropy 1700000000000 "0.4fzyo82mvyr")
                      boxPrimitive initialWorld))
                eq_refl) as [_ H].
  destruct (H _ _ _ eq_refl) as [H1 H2].
  rewrite H1, H2. repeat split.
Defined.

(* ------------------------------------------------------------------ *)
(** ** Sequences of measurement clicks *)

Lemma pair_induction {A : Type} (P : list A -> Prop) :
  P [] -> (forall a, P [a]) -> (forall a b l, P l -> P (a :: b :: l)) ->
  forall l, P l.
Proof.
  intros H0 H1 H2. fix IH 1.
  intros [|a [|b l]]; [exact H0 | apply H1 | apply H2, IH].
Qed.

Lemma pairUp_length {A : Type} (l : list A) :
  List.length (pairUp l) = Nat.div2 (List.length l).
Proof.
  induction l as [| a | a b l IH] using pair_induction; simpl; auto.
Qed.

Lemma canvasClick_first (t : Z) (p : Vector3.t) (w : World) :
  mode w = MEASURE -> measuringStart w = None ->
  fst (handleCanvasClick t (mkEvent p) w w) = setMeasuringStart (Some p) w.
Proof.
  intros Hm Hs. unfold handleCanvasClick. rewrite Hm, Hs. simpl.
  now rewrite clone_id.
Qed.

Lemma canvasClick_second (t : Z) (start q : Vector3.t) (w : World) :
  mode w = MEASURE -> measuringStart w = Some start ->
  fst (handleCanvasClick t (mkEvent q) w w)
  = setMeasuringStart None
      (setMeasurements
         (fun ms => ms ++ [measurementOf ((t, start), (t, q))]) w).
Proof.
  intros Hm Hs. unfold handleCanvasClick. rewrite Hm, Hs. reflexivity.
Qed.

Lemma canvasClicks_two (e1 e2 : Z * Vector3.t) (es : list (Z * Vector3.t)) (w : World) :
  mode w = MEASURE -> measuringStart w = None ->
  canvasClicks (e1 :: e2 :: es) w
  = canvasClicks es (setMeasurements (fun ms => ms ++ [measurementOf (e1, e2)]) w).
Proof.
  intros Hm Hs. unfold canvasClicks. cbn [fold_left]. f_equal.
  rewrite (canvasClick_first (fst e1) (snd e1) w Hm Hs).
  rewrite (canvasClick_second (fst e2) (snd e1) (snd e2)
             (setMeasuringStart (Some (snd e1)) w) Hm eq_refl).
  unfold measurementOf, setMeasuringStart, setMeasurements.
  cbn [objects selectedId mode background measurements watermark isRendering
       renderResult canvasRef selectedParts measuringStart alerts
       consoleErrors objectURLs inFlight fst snd].
  rewrite <- Hs. destruct w; reflexivity.
Qed.

(** X8.  In measure mode, starting with an empty pending slot, any sequence
    of calls of [handleCanvasClick] pairs the clicks two by two: the store
    gains one measurement per pair, from the first to the second point of the
    pair and stamped with the second click's clock reading, in order; a last
    odd click is left pending; nothing else changes. *)
Theorem canvas_clicks_pair_up (es : list (Z * Vector3.t)) (w : World) :
  mode w = MEASURE ->
  measuringStart w = None ->
  canvasClicks es w
  = setMeasuringStart (option_map snd (oddOneOut es))
      (setMeasurements (fun ms => ms ++ map measurementOf (pairUp es)) w)
  /\ List.length (measurements (canvasClicks es w))
     = List.length (measurements w) + Nat.div2 (List.length es).
Proof.
  intros Hm Hs.
  assert (E : canvasClicks es w
              = setMeasuringStart (option_map snd (oddOneOut es))
                  (setMeasurements
                     (fun ms => ms ++ map measurementOf (pairUp es)) w)).
  { revert w Hm Hs.
    induction es as [| e | e1 e2 es IH] using pair_induction; intros w Hm Hs.
    - unfold canvasClicks, setMeasuringStart, setMeasurements. simpl.
      rewrite app_nil_r, <- Hs. symmetry. apply world_eta.
    - unfold canvasClicks, handleCanvasClick. simpl. rewrite Hm, Hs. simpl.
      rewrite clone_id. unfold setMeasuringStart, setMeasurements. simpl.
      now rewrite app_nil_r.
    - rewrite (canvasClicks_two e1 e2 es w Hm Hs), IH; [|exact Hm|exact Hs].
      unfold setMeasuringStart, setMeasurements. simpl.
      now rewrite <- app_assoc. }
  split; [exact E|].
  rewrite E. simpl. now rewrite length_app, length_map, pairUp_length.
Qed.

Lemma canvas_clicks_pair_up_witness :
  let w := setMode MEASURE initialWorld in
  let es := [ (1000%Z, (Vector3.mk 0 0 0)%float);
              (2000%Z, (Vector3.mk 3 4 0)%float);
              (3000%Z, (Vector3.mk 1 1 1)%float) ] in
  measurements (canvasClicks es w)
  = [Measurement.mk "2000" (0, 0, 0)%float (3, 4, 0)%float 5%float]
  /\ measuringStart (canvasClicks es w) = Some (Vector3.mk 1 1 1)%float.
Proof.
  cbv zeta.
  rewrite (proj1 (canvas_clicks_pair_up
                    [ (1000%Z, (Vector3.mk 0 0 0)%float);
                      (2000%Z, (Vector3.mk 3 4 0)%float);
                      (3000%Z, (Vector3.mk 1 1 1)%float) ]
                    (setMode MEASURE initialWorld) eq_refl eq_refl)).
  split; reflexivity.
Defined.

Lemma controller_clicks_two (e1 e2 : ThreeEvent) (es : list ThreeEvent)
  (s : MeasurementController.State) :
  MeasurementController.startPoint s = None ->
  MeasurementController.handleClicks true (e1 :: e2 :: es) s
  = MeasurementController.handleClicks true es
      (MeasurementController.mk None
         (MeasurementController.completed s
          ++ [(Vector3.toArray (point e1), Vector3.toArray (point e2))])).
Proof.
  intros Hs. unfold MeasurementController.handleClicks. simpl. f_equal.
  unfold MeasurementController.handleClick. simpl. rewrite Hs. simpl.
  now rewrite !clone_id.
Qed.

(** X9.  [MeasurementController.handleClick] ignores every click while the
    controller is inactive.  While it is active and starts with no pending
    point, a sequence of clicks reports one completed pair of points per two
    clicks, in order, and keeps a last odd click pending; becoming inactive
    drops the pending point and keeps what was reported. *)
Theorem controller_clicks_pair_up (es : list ThreeEvent)
  (s : MeasurementController.State) :
  MeasurementController.startPoint s = None ->
  MeasurementController.handleClicks false es s = s
  /\ MeasurementController.handleClicks true es s
     = MeasurementController.mk (option_map point (oddOneOut es))
         (MeasurementController.completed s
          ++ map (fun c => (Vector3.toArray (point (fst c)),
                            Vector3.toArray (point (snd c))))
               (pairUp es))
  /\ MeasurementController.onActiveChange false
       (MeasurementController.handleClicks true es s)
     = MeasurementController.mk None
         (MeasurementController.completed
            (MeasurementController.handleClicks true es s)).
Proof.
  intros Hs. split.
  { unfold MeasurementController.handleClicks.
    induction es as [|e es IH]; simpl; auto. }
  split; [|reflexivity].
  revert s Hs.
  induction es as [| e | e1 e2 es IH] using pair_induction; intros s Hs.
  - destruct s as [sp done]. simpl in Hs. subst. simpl.
    unfold MeasurementController.handleClicks. simpl. now rewrite app_nil_r.
  - unfold MeasurementController.handleClicks, MeasurementController.handleClick.
    simpl. rewrite Hs. simpl. now rewrite clone_id, app_nil_r.
  - rewrite (controller_clicks_two e1 e2 es s Hs), IH by reflexivity.
    simpl. now rewrite <- app_assoc.
Qed.

Lemma controller_clicks_pair_up_witness :
  let s := MeasurementController.mk None [] in
  let es := [ mkEvent (Vector3.mk 0 0 0); mkEvent (Vector3.mk 3 4 0);
              mkEvent (Vector3.mk 1 1 1) ]%float in
  MeasurementController.handleClicks true es s
  = MeasurementController.mk (Some (Vector3.mk 1 1 1)%float)
      [((0, 0, 0)%float, (3, 4, 0)%float)].
Proof.
  cbv zeta.
  exact (proj1 (proj2 (controller_clicks_pair_up
                         [ mkEvent (Vector3.mk 0 0 0); mkEvent (Vector3.mk 3 4 0);
                           mkEvent (Vector3.mk 1 1 1) ]%float
                         (MeasurementController.mk None []) eq_refl))).
Defined.

(* ------------------------------------------------------------------ *)
(** ** The background *)

Lemma prefix_head (c d : ascii) (p s : string) :
  prefix (String c p) (String d s) = true -> c = d.
Proof.
  simpl. destruct (Ascii.ascii_dec c d) as [E|E]; [auto|discriminate].
Qed.

(** X10.  The viewer never uses one background both ways: a background that
    is taken as the canvas color (it starts with [#]) is not drawn as an
    image layer, and one that is drawn as an image layer (it starts with
    [http] or [blob]) leaves the canvas its default color.  Any other text
    gives no image and the default color.  A background file replaces the
    background by the URL the browser gives it; without a file the toolbar's
    input changes nothing. *)
Theorem background_is_color_or_image (bg : string) :
  (prefix "#" bg = true -> showsBackgroundImage bg = false /\ canvasColor bg = bg)
  /\ (showsBackgroundImage bg = true -> canvasColor bg = "#1a1a1d")
  /\ (prefix "#" bg = false -> canvasColor bg = "#1a1a1d")
  /\ (forall url f rest w,
        background (onBackgroundChange url (Some (f :: rest)) w) = url
        /\ objectURLs (onBackgroundChange url (Some (f :: rest)) w)
           = objectURLs w ++ [(url, f)])
  /\ (forall url w,
        onBackgroundChange url None w = w
        /\ onBackgroundChange url (Some []) w = w).
Proof.
  assert (Hx : prefix "#" bg = true -> showsBackgroundImage bg = false).
  { unfold showsBackgroundImage. destruct bg as [|d s]; [discriminate|].
    intros H. apply prefix_head in H. subst d.
    reflexivity. }
  split.
  { intros H. split; [auto|]. unfold canvasColor. now rewrite H. }
  split.
  { intros H. unfold canvasColor.
    destruct (prefix "#" bg) eqn:E; [|reflexivity].
    rewrite (Hx eq_refl) in H. discriminate. }
  split; [intros H; unfold canvasColor; now rewrite H|].
  split; [intros; split; reflexivity|].
  intros; split; reflexivity.
Qed.

(* ------------------------------------------------------------------ *)
(** ** What each event does, in closed form *)

Lemma click_cases (domAfterStop : bool) (c : Click) (w : World) :
  click domAfterStop c w = w
  \/ click domAfterStop c w = setSelectedId None w
  \/ exists obj, In obj (objects w)
       /\ click domAfterStop c w = setSelectedId (Some (SceneObject.id obj)) w.
Proof.
  unfold click.
  destruct (flat_map (handlersOfHit (scene w)) (hits c)) as [|[h e] rest] eqn:Hhs.
  - simpl. unfold canvasOnClick. destruct (mode w); auto.
  - destruct (reachable_handlers_store w c h e) as (obj & Hobj & ->).
    { rewrite Hhs. now left. }
    simpl. unfold sceneItemOnSelect, canvasOnClick.
    destruct (mode w), domAfterStop; simpl; eauto.
Qed.

Lemma handleAssemble_calls (draws : nat -> Entropy) (w : World) :
  handleAssemble draws w w
  = setSelectedParts []
      (addObjects (assembleCalls draws 0%float 0 (selectedParts w)) w).
Proof.
  unfold handleAssemble.
  pose proof (fold_assembleStep_calls draws (selectedParts w) 0%float 0 w) as H.
  destruct (fold_left _ _ _) as [[i c] w']. simpl in H. now rewrite H.
Qed.

Lemma clickAssemble_cases (draws : nat -> Entropy) (w : World) :
  clickAssemble draws w = w
  \/ exists calls,
       clickAssemble draws w
       = setSelectedParts []
           (setMode (mode (addObjects calls w))
              (setSelectedId (selectedId (addObjects calls w))
                 (setObjects
                    (fun prev => prev ++ map (fun c => newObj (fst c) (snd c)) calls)
                    w)))
       /\ (forall c, In c calls ->
             exists part offset,
               In part SYSTEM_PARTS /\ snd c = assembleData part offset).
Proof.
  unfold clickAssemble. destruct (disabled (assembleButton w)); [now left|].
  right. exists (assembleCalls draws 0%float 0 (selectedParts w)).
  split; [rewrite handleAssemble_calls, <- addObjects_frame; reflexivity|].
  generalize 0%float 0. induction (selectedParts w) as [|id rest IH];
    intros index calls c Hc; simpl in Hc; [destruct Hc|].
  destruct (findPart id) as [part|] eqn:E; [|eauto].
  destruct Hc as [<-|Hc]; [|eauto].
  exists part, (index * 1.5)%float. split; [|reflexivity].
  unfold findPart in E. apply find_some in E. apply E.
Qed.

Lemma activate_cases (via : Activation) (w : World) :
  activateGenerateRender via w = w
  \/ (exists e,
        activateGenerateRender via w
        = setIsRendering false
            (console_error e
               (alert "Rendering failed. Please try again."
                  (setIsRendering true w))))
  \/ (exists req,
        activateGenerateRender via w
        = setInFlight (fun rs => rs ++ [req]) (setIsRendering true w)).
Proof.
  unfold activateGenerateRender, handleGenerateRender. simpl.
  destruct via; [destruct (modalShown w); [now left|]|];
    (destruct (canvasRef w) as [canvas|]; [|now left];
     destruct (toDataURL canvas); simpl; eauto).
Qed.

Lemma settle_cases (i : nat) (o : Outcome) (w : World) :
  settle i o w = w
  \/ (inFlight w <> []
      /\ settle i o w
         = resumeGenerateRender o
             (setInFlight (fun rs => firstn i rs ++ skipn (S i) rs) w)).
Proof.
  unfold settle. destruct (nth_error (inFlight w) i) eqn:E; [|now left].
  right. split; [|reflexivity]. intros Hnil. rewrite Hnil in E.
  destruct i; discriminate.
Qed.

Lemma handleUpdateObject_ids (i : string) (u : PartialSceneObject.t) (w : World) :
  PartialSceneObject.id u = None ->
  ids (objects (handleUpdateObject i u w)) = ids (objects w).
Proof.
  intros Hu. simpl. unfold ids. rewrite map_map. apply map_ext.
  intros o. destruct (String.eqb (SceneObject.id o) i); [|reflexivity].
  now apply spread_id.
Qed.

(* ------------------------------------------------------------------ *)
(** ** Invariants of the page *)

Lemma step_measurements (domAfterStop : bool) (ev : Event) (w : World) :
  measuringStart (step domAfterStop ev w) = measuringStart w
  /\ (measurements (step domAfterStop ev w) = measurements w
      \/ measurements (step domAfterStop ev w) = []).
Proof.
  destruct ev; cbn [step].
  - auto.
  - auto.
  - unfold onWatermarkTextChange. destruct (WatermarkConfig.enabled _); auto.
  - unfold onBackgroundChange. destruct files as [[|f r]|]; auto.
  - destruct (activate_cases via w) as [-> | [[e ->] | [req ->]]]; auto.
  - destruct (settle_cases i o w) as [-> | [_ ->]]; [auto|]. destruct o; auto.
  - destruct (closeButtonsShown w); auto.
  - destruct (measurementListShown w); auto.
  - unfold clickPartCheckbox. destruct (nth_error SYSTEM_PARTS k); auto.
  - destruct (clickAssemble_cases draws w) as [-> | (calls & -> & _)]; auto.
  - unfold handleUpload. destruct files as [[|f r]|]; auto.
  - destruct (click_cases domAfterStop c w) as [-> | [-> | (obj & _ & ->)]]; auto.
  - destruct (gizmoRendered objId w); [|auto]. destruct meshRef; auto.
  - auto.
Qed.

(** X11.  No event of the page ever adds a measurement or records a pending
    start point, in any mode: an event leaves the measurement store as it is
    or empties it, and leaves the pending slot alone.  So from the initial
    state, after any sequence of events, the measurement store is empty, no
    start point is pending, and the measurement list is not shown. *)
Theorem measurements_never_appear (domAfterStop : bool) (evs : list Event) (w : World) :
  measuringStart (run domAfterStop evs w) = measuringStart w
  /\ List.length (measurements (run domAfterStop evs w))
     <= List.length (measurements w)
  /\ measurements (run domAfterStop evs initialWorld) = []
  /\ measuringStart (run domAfterStop evs initialWorld) = None
  /\ measurementListShown (run domAfterStop evs initialWorld) = false.
Proof.
  assert (H : forall v,
            measuringStart (run domAfterStop evs v) = measuringStart v
            /\ List.length (measurements (run domAfterStop evs v))
               <= List.length (measurements v)).
  { unfold run. induction evs as [|ev evs IH]; intros v; simpl; [auto|].
    destruct (IH (step domAfterStop ev v)) as [-> Hle].
    destruct (step_measurements domAfterStop ev v) as [-> [E|E]];
      split; auto; rewrite E in Hle; simpl in Hle; lia. }
  split; [apply H|]. split; [apply H|].
  destruct (H initialWorld) as [Hs Hl]. simpl in Hl.
  assert (E : measurements (run domAfterStop evs initialWorld) = []).
  { destruct (measurements _); [reflexivity|simpl in Hl; lia]. }
  split; [exact E|]. split; [exact Hs|].
  unfold measurementListShown. now rewrite E.
Qed.

Lemma addObjects_selection_valid (calls : list (Entropy * PartialSceneObject.t))
  (w : World) :
  validSelection w ->
  match selectedId (addObjects calls w) with
  | Some i =>
      In i (ids (objects w ++ map (fun c => newObj (fst c) (snd c)) calls))
  | None => True
  end.
Proof.
  intros Hv. destruct calls as [|c0 cs] eqn:Ec.
  - simpl. rewrite app_nil_r. exact Hv.
  - rewrite <- Ec. assert (Hne : calls <> []) by (rewrite Ec; discriminate).
    destruct (exists_last Hne) as (l & x & ->).
    destruct (addObjects_last l x w) as [-> _].
    rewrite ids_app. apply in_or_app. right.
    unfold ids. rewrite map_map, map_app. apply in_or_app. right. now left.
Qed.

Lemma step_selection (domAfterStop : bool) (ev : Event) (w : World) :
  validSelection w -> validSelection (step domAfterStop ev w).
Proof.
  intros Hv. destruct ev; cbn [step].
  - exact Hv.
  - exact Hv.
  - unfold onWatermarkTextChange. destruct (WatermarkConfig.enabled _); exact Hv.
  - unfold onBackgroundChange. destruct files as [[|f r]|]; exact Hv.
  - destruct (activate_cases via w) as [-> | [[e ->] | [req ->]]]; exact Hv.
  - destruct (settle_cases i o w) as [-> | [_ ->]]; [exact Hv|]. destruct o; exact Hv.
  - destruct (closeButtonsShown w); exact Hv.
  - destruct (measurementListShown w); exact Hv.
  - unfold clickPartCheckbox. destruct (nth_error SYSTEM_PARTS k); exact Hv.
  - destruct (clickAssemble_cases draws w) as [-> | (calls & -> & _)]; [exact Hv|].
    unfold validSelection. simpl. now apply addObjects_selection_valid.
  - unfold handleUpload. destruct files as [[|f r]|]; try exact Hv.
    unfold validSelection. simpl. rewrite ids_app. apply in_or_app. right. now left.
  - destruct (click_cases domAfterStop c w) as [-> | [-> | (obj & Hobj & ->)]];
      [exact Hv | exact I |].
    unfold validSelection. simpl. unfold ids. now apply in_map.
  - destruct (gizmoRendered objId w); [|exact Hv]. destruct meshRef as [m|]; [|exact Hv].
    unfold validSelection, onObjectChange.
    rewrite handleUpdateObject_ids by reflexivity. exact Hv.
  - exact Hv.
Qed.

(** X12.  The selection always names an object of the store or is empty:
    every event of the page keeps it so, hence so does every sequence of
    events, and it holds in every state reached from the initial one. *)
Theorem selection_stays_valid (domAfterStop : bool) (evs : list Event) (w : World) :
  validSelection w ->
  validSelection (run domAfterStop evs w)
  /\ validSelection (run domAfterStop evs initialWorld).
Proof.
  assert (H : forall v, validSelection v -> validSelection (run domAfterStop evs v)).
  { unfold run. induction evs as [|ev evs IH]; intros v Hv; simpl; [exact Hv|].
    apply IH. now apply step_selection. }
  intros Hv. split; [now apply H|]. apply H. exact I.
Qed.

Lemma selection_stays_valid_witness :
  let w := handleAddObject (mkEntropy 1700000000000 "0.4fzyo82mvyr")
             boxPrimitive initialWorld in
  let evs := [ ToolClick SELECT;
               ViewportClick (mkClick [] 1700000000100);
               PartCheckbox 2;
               AssembleClick (fun k => mkEntropy (1700000000200 + Z.of_nat k)
                                         "0.k3x9q0p1zzab") ] in
  selectedId (run false evs w) = Some "1700000000200-k3x9q0p1z"
  /\ validSelection (run false evs w).
Proof.
  cbv zeta. split; [reflexivity|].
  refine (proj1 (selection_stays_valid false _ _ _)).
  simpl. now left.
Defined.

Lemma step_store (domAfterStop : bool) (ev : Event) (w : World) :
  exists more, ids (objects (step domAfterStop ev w)) = ids (objects w) ++ more.
Proof.
  assert (Hsame : exists more : list string, ids (objects w) = ids (objects w) ++ more).
  { exists []. now rewrite app_nil_r. }
  destruct ev; cbn [step].
  - exact Hsame.
  - exact Hsame.
  - unfold onWatermarkTextChange. destruct (WatermarkConfig.enabled _); exact Hsame.
  - unfold onBackgroundChange. destruct files as [[|f r]|]; exact Hsame.
  - destruct (activate_cases via w) as [-> | [[e ->] | [req ->]]]; exact Hsame.
  - destruct (settle_cases i o w) as [-> | [_ ->]]; [exact Hsame|].
    destruct o; exact Hsame.
  - destruct (closeButtonsShown w); exact Hsame.
  - destruct (measurementListShown w); exact Hsame.
  - unfold clickPartCheckbox. destruct (nth_error SYSTEM_PARTS k); exact Hsame.
  - destruct (clickAssemble_cases draws w) as [-> | (calls & -> & _)]; [exact Hsame|].
    simpl. rewrite ids_app. eauto.
  - unfold handleUpload. destruct files as [[|f r]|]; try exact Hsame.
    simpl. rewrite ids_app. eauto.
  - destruct (click_cases domAfterStop c w) as [-> | [-> | (obj & _ & ->)]];
      exact Hsame.
  - destruct (gizmoRendered objId w); [|exact Hsame].
    destruct meshRef as [m|]; [|exact Hsame].
    unfold onObjectChange. rewrite handleUpdateObject_ids by reflexivity.
    exact Hsame.
  - exact Hsame.
Qed.

(** X13.  No event removes an object, reorders the store or gives an object
    another id: after any sequence of events the ids of the store are the ids
    it had, in the same order, followed by the ids of the objects added
    since. *)
Theorem store_only_grows (domAfterStop : bool) (evs : list Event) (w : World) :
  exists more,
    ids (objects (run domAfterStop evs w)) = ids (objects w) ++ more
    /\ List.length (objects (run domAfterStop evs w))
       = List.length (objects w) + List.length more.
Proof.
  assert (H : exists more,
            ids (objects (run domAfterStop evs w)) = ids (objects w) ++ more).
  { unfold run. revert w. induction evs as [|ev evs IH]; intros w; simpl.
    - exists []. now rewrite app_nil_r.
    - destruct (IH (step domAfterStop ev w)) as [m2 ->].
      destruct (step_store domAfterStop ev w) as [m1 ->].
      exists (m1 ++ m2). now rewrite app_assoc. }
  destruct H as [more H]. exists more. split; [exact H|].
  apply (f_equal (@List.length string)) in H.
  unfold ids in H. rewrite length_app, !length_map in H. exact H.
Qed.

Lemma togglePart_catalog (id : string) (w : World) :
  In id (map DropboxFile.id SYSTEM_PARTS) ->
  catalogSelection w -> catalogSelection (togglePart id w w).
Proof.
  intros Hid [Hnd Hincl]. unfold catalogSelection.
  rewrite togglePart_selectedParts.
  destruct (has (selectedParts w) id) eqn:Hhas.
  - split; [now apply NoDup_filter|].
    intros x Hx. apply filter_In in Hx as [Hx _]. now apply Hincl.
  - split.
    + apply NoDup_app; [exact Hnd | repeat constructor; intros [] |].
      intros x Hx [<-|[]]. apply has_In in Hx. congruence.
    + intros x Hx. apply in_app_or in Hx as [Hx|[<-|[]]]; [now apply Hincl|exact Hid].
Qed.

Lemma step_catalog (domAfterStop : bool) (ev : Event) (w : World) :
  catalogSelection w -> catalogSelection (step domAfterStop ev w).
Proof.
  intros Hv. destruct ev; cbn [step].
  - exact Hv.
  - exact Hv.
  - unfold onWatermarkTextChange. destruct (WatermarkConfig.enabled _); exact Hv.
  - unfold onBackgroundChange. destruct files as [[|f r]|]; exact Hv.
  - destruct (activate_cases via w) as [-> | [[e ->] | [req ->]]]; exact Hv.
  - destruct (settle_cases i o w) as [-> | [_ ->]]; [exact Hv|]. destruct o; exact Hv.
  - destruct (closeButtonsShown w); exact Hv.
  - destruct (measurementListShown w); exact Hv.
  - unfold clickPartCheckbox. destruct (nth_error SYSTEM_PARTS k) as [part|] eqn:E;
      [|exact Hv].
    apply togglePart_catalog; [|exact Hv].
    apply in_map. eapply nth_error_In; eauto.
  - destruct (clickAssemble_cases draws w) as [-> | (calls & -> & _)]; [exact Hv|].
    split; [constructor | intros x []].
  - unfold handleUpload. destruct files as [[|f r]|]; exact Hv.
  - destruct (click_cases domAfterStop c w) as [-> | [-> | (obj & _ & ->)]]; exact Hv.
  - destruct (gizmoRendered objId w); [|exact Hv]. destruct meshRef; exact Hv.
  - exact Hv.
Qed.

Lemma catalog_all_known (s : list string) :
  incl s (map DropboxFile.id SYSTEM_PARTS) -> filter knownPart s = s.
Proof.
  induction s as [|id s IH]; intros Hincl; simpl; [reflexivity|].
  destruct (findPart_catalog id (Hincl id (or_introl eq_refl))) as (part & Hp & _).
  unfold knownPart at 1. rewrite Hp. f_equal. apply IH.
  intros x Hx. apply Hincl. now right.
Qed.

(** X14.  The part selection only ever holds pairwise distinct ids of catalog
    parts, at most eight of them: the part checkboxes keep it so and no other
    event touches it except assembling, which empties it.  So after any
    sequence of events from the initial state, the assemble button adds
    exactly one object per selected part. *)
Theorem part_selection_stays_in_catalog
  (domAfterStop : bool) (evs : list Event) (w : World) :
  catalogSelection w ->
  let w' := run domAfterStop evs w in
  catalogSelection w'
  /\ List.length (selectedParts w') <= 8
  /\ (forall draws,
        List.length (objects (clickAssemble draws w'))
        = List.length (objects w') + List.length (selectedParts w')
        /\ selectedParts (clickAssemble draws w') = [])
  /\ catalogSelection (run domAfterStop evs initialWorld).
Proof.
  assert (H : forall v, catalogSelection v -> catalogSelection (run domAfterStop evs v)).
  { unfold run. induction evs as [|ev evs IH]; intros v Hv; simpl; [exact Hv|].
    apply IH. now apply step_catalog. }
  intros Hv. cbv zeta. specialize (H w Hv) as Hw.
  split; [exact Hw|]. destruct Hw as [Hnd Hincl].
  split; [apply (NoDup_incl_length Hnd Hincl)|].
  split.
  - intros draws. unfold clickAssemble, assembleButton. cbn [disabled].
    destruct (selectedParts (run domAfterStop evs w)) as [|id rest] eqn:Es.
    + cbn. rewrite Es. split; [cbn; lia|reflexivity].
    + cbn [List.length Nat.eqb]. rewrite handleAssemble_calls.
      cbn [objects selectedParts setSelectedParts].
      rewrite addObjects_objects, length_app, length_map, assembleCalls_length.
      rewrite Es, catalog_all_known by exact Hincl.
      split; reflexivity.
  - assert (Hinit : catalogSelection initialWorld).
    { split; [constructor | intros x []]. }
    unfold run. clear Hv Hnd Hincl H.
    revert Hinit. generalize initialWorld.
    induction evs as [|ev evs IH]; intros v Hv; simpl; [exact Hv|].
    apply IH. now apply step_catalog.
Qed.

Lemma part_selection_stays_in_catalog_witness :
  let evs := [ PartCheckbox 2; PartCheckbox 0; PartCheckbox 2; PartCheckbox 4;
               PartCheckbox 99 ] in
  selectedParts (run false evs initialWorld) = ["p1"; "p5"]
  /\ catalogSelection (run false evs initialWorld).
Proof.
  cbv zeta. split; [reflexivity|].
  refine (proj1 (part_selection_stays_in_catalog false _ initialWorld _)).
  split; [constructor | intros x []].
Defined.

Lemma step_bookkeeping (domAfterStop : bool) (ev : Event) (w : World) :
  renderBookkeeping w -> renderBookkeeping (step domAfterStop ev w).
Proof.
  intros Hv. pose proof Hv as (Hflag & Hal & Hlen).
  destruct ev; cbn [step].
  - exact Hv.
  - exact Hv.
  - unfold onWatermarkTextChange. destruct (WatermarkConfig.enabled _); exact Hv.
  - unfold onBackgroundChange. destruct files as [[|f r]|]; exact Hv.
  - destruct (activate_cases via w) as [-> | [[e ->] | [req ->]]]; [exact Hv| |].
    + unfold renderBookkeeping. simpl. split; [discriminate|].
      split; [apply Forall_app; split; [exact Hal|repeat constructor]|].
      rewrite !length_app. simpl. lia.
    + unfold renderBookkeeping. simpl. split; [|split; assumption].
      intros _ Hnil. apply app_eq_nil in Hnil as [_ Hnil]. discriminate.
  - destruct (settle_cases i o w) as [-> | [_ ->]]; [exact Hv|].
    unfold renderBookkeeping. destruct o; simpl.
    + split; [discriminate|]. split; assumption.
    + split; [discriminate|].
      split; [apply Forall_app; split; [exact Hal|repeat constructor]|].
      rewrite !length_app. simpl. lia.
  - destruct (closeButtonsShown w); exact Hv.
  - destruct (measurementListShown w); exact Hv.
  - unfold clickPartCheckbox. destruct (nth_error SYSTEM_PARTS k); exact Hv.
  - destruct (clickAssemble_cases draws w) as [-> | (calls & -> & _)]; exact Hv.
  - unfold handleUpload. destruct files as [[|f r]|]; exact Hv.
  - destruct (click_cases domAfterStop c w) as [-> | [-> | (obj & _ & ->)]]; exact Hv.
  - destruct (gizmoRendered objId w); [|exact Hv]. destruct meshRef; exact Hv.
  - exact Hv.
Qed.

(** X15.  After any sequence of events from the initial state: the rendering
    flag is set only while at least one render call is outstanding; every
    alert ever shown is the render failure text; and there are exactly as
    many alerts as logged errors.  The converse of the first part fails as
    soon as two calls are outstanding: when one of them settles the flag is
    cleared although the other is still in flight. *)
Theorem render_bookkeeping (domAfterStop : bool) (evs : list Event) :
  renderBookkeeping (run domAfterStop evs initialWorld)
  /\ (forall w i o r1 r2 rest,
        inFlight w = r1 :: r2 :: rest -> i < List.length (inFlight w) ->
        isRendering (settle i o w) = false
        /\ List.length (inFlight (settle i o w)) = S (List.length rest)).
Proof.
  split.
  - assert (Hinit : renderBookkeeping initialWorld).
    { split; [discriminate|]. split; [constructor|reflexivity]. }
    unfold run. revert Hinit. generalize initialWorld.
    induction evs as [|ev evs IH]; intros v Hv; simpl; [exact Hv|].
    apply IH. now apply step_bookkeeping.
  - intros w i o r1 r2 rest Hin Hi. unfold settle.
    destruct (nth_error (inFlight w) i) eqn:E.
    2: { apply nth_error_None in E. lia. }
    split; [destruct o; reflexivity|].
    assert (Hl : List.length (firstn i (inFlight w) ++ skipn (S i) (inFlight w))
                 = S (List.length rest)).
    { rewrite length_app, length_firstn, length_skipn.
      rewrite Hin in Hi |- *. cbn [List.length] in Hi |- *. lia. }
    destruct o; exact Hl.
Qed.

Lemma assembleData_wellFormed (e : Entropy) (part : DropboxFile.t) (offset : number) :
  In part SYSTEM_PARTS -> wellFormed (newObj e (assembleData part offset)).
Proof.
  simpl. intros H.
  repeat (destruct H as [<-|H];
          [unfold wellFormed; simpl; repeat split; discriminate|]).
  destruct H.
Qed.

Lemma uploadData_wellFormed (e : Entropy) (f : File) (url : string) :
  wellFormed (newObj e (uploadData f url)).
Proof.
  unfold wellFormed. simpl. repeat split; try discriminate.
  destruct (fileName f); simpl; discriminate.
Qed.

Lemma spread_transform_wellFormed (o : SceneObject.t) (m : MeshState) :
  wellFormed o -> wellFormed (spread o (transformUpdates m)).
Proof. destruct o. unfold wellFormed. simpl. auto. Qed.

Lemma step_wellFormed (domAfterStop : bool) (ev : Event) (w : World) :
  Forall wellFormed (objects w) ->
  Forall wellFormed (objects (step domAfterStop ev w)).
Proof.
  intros Hv. destruct ev; cbn [step].
  - exact Hv.
  - exact Hv.
  - unfold onWatermarkTextChange. destruct (WatermarkConfig.enabled _); exact Hv.
  - unfold onBackgroundChange. destruct files as [[|f r]|]; exact Hv.
  - destruct (activate_cases via w) as [-> | [[e ->] | [req ->]]]; exact Hv.
  - destruct (settle_cases i o w) as [-> | [_ ->]]; [exact Hv|]. destruct o; exact Hv.
  - destruct (closeButtonsShown w); exact Hv.
  - destruct (measurementListShown w); exact Hv.
  - unfold clickPartCheckbox. destruct (nth_error SYSTEM_PARTS k); exact Hv.
  - destruct (clickAssemble_cases draws w) as [-> | (calls & -> & Hcalls)];
      [exact Hv|].
    simpl. apply Forall_app. split; [exact Hv|].
    apply Forall_forall. intros o Ho. apply in_map_iff in Ho as (c & <- & Hc).
    destruct (Hcalls c Hc) as (part & offset & Hpart & ->).
    now apply assembleData_wellFormed.
  - unfold handleUpload. destruct files as [[|f r]|]; try exact Hv.
    simpl. apply Forall_app. split; [exact Hv|].
    constructor; [apply uploadData_wellFormed | constructor].
  - destruct (click_cases domAfterStop c w) as [-> | [-> | (obj & _ & ->)]]; exact Hv.
  - destruct (gizmoRendered objId w); [|exact Hv].
    destruct meshRef as [m|]; [|exact Hv].
    simpl. apply Forall_forall. intros o Ho. apply in_map_iff in Ho as (o0 & <- & Ho).
    rewrite Forall_forall in Hv.
    destruct (String.eqb _ _); [apply spread_transform_wellFormed|];
      apply Hv; exact Ho.
  - exact Hv.
Qed.

(** X16.  Every object the page ever puts or keeps in the store is well
    formed: a primitive has a geometry tag and no file URL, an uploaded
    object has a file URL and no geometry tag, and name and color are not
    empty.  [handleAddObject] checks none of this; it holds because the
    catalog, the upload handler and the gizmo only ever pass such data. *)
Theorem objects_stay_well_formed (domAfterStop : bool) (evs : list Event) (w : World) :
  Forall wellFormed (objects w) ->
  Forall wellFormed (objects (run domAfterStop evs w))
  /\ Forall wellFormed (objects (run domAfterStop evs initialWorld)).
Proof.
  assert (H : forall v, Forall wellFormed (objects v) ->
                        Forall wellFormed (objects (run domAfterStop evs v))).
  { unfold run. induction evs as [|ev evs IH]; intros v Hv; simpl; [exact Hv|].
    apply IH. now apply step_wellFormed. }
  intros Hv. split; [now apply H|]. apply H. constructor.
Qed.

Lemma objects_stay_well_formed_witness :
  let evs := [ PartCheckbox 4;
               AssembleClick (fun k => mkEntropy (1700000000200 + Z.of_nat k)
                                         "0.k3x9q0p1zzab");
               UploadChange (mkEntropy 1700000000300 "0.4fzyo82mvyr")
                 "blob:http://localhost/1b2c" (Some [mkFile ""]) ] in
  map SceneObject.name (objects (run false evs initialWorld))
  = ["Hydraulic Piston"; "New Object"]
  /\ Forall wellFormed (objects (run false evs initialWorld)).
Proof.
  cbv zeta. split; [reflexivity|].
  refine (proj1 (objects_stay_well_formed false _ initialWorld _)).
  constructor.
Defined.

(* ------------------------------------------------------------------ *)
(** ** One render, from the click to the closed modal *)

(** X17.  From a state with a mounted canvas whose capture succeeds, no
    render under way and no result shown: a click on the render button shows
    the modal with the flag set; when the call is fulfilled with a non-empty
    image the flag is cleared, the result is shown, offered for download, and
    the watermark preview is hidden; closing the modal then restores exactly
    the state before the click.  When the call is rejected instead, the modal
    goes away and the state differs from the one before the click only by the
    alert and the logged error. *)
Theorem render_cycle_round_trip
  (domAfterStop : bool) (w : World) (canvas : HTMLCanvasElement)
  (dataUrl result : string) (err : JsError) :
  canvasRef w = Some canvas ->
  toDataURL canvas = Normal dataUrl ->
  isRendering w = false ->
  renderResult w = None ->
  truthy result = true ->
  let last := List.length (inFlight w) in
  let w1 := step domAfterStop (RenderActivate Pointer) w in
  let w2 := step domAfterStop (RenderSettle last (Fulfilled result)) w1 in
  let w3 := step domAfterStop ModalClose w2 in
  let w2' := step domAfterStop (RenderSettle last (Rejected err)) w1 in
  (isRendering w1 = true /\ modalShown w1 = true /\ closeButtonsShown w1 = false)
  /\ (isRendering w2 = false /\ renderResult w2 = Some result
      /\ modalShown w2 = true /\ closeButtonsShown w2 = true
      /\ downloadHref w2 = result /\ watermarkPreviewShown w2 = false)
  /\ w3 = w
  /\ w2' = console_error err (alert "Rendering failed. Please try again." w)
  /\ modalShown w2' = false.
Proof.
  intros Hc Hd Hr Hres Ht. cbv zeta. cbn [step].
  assert (Hmodal : modalShown w = false).
  { unfold modalShown. now rewrite Hr, Hres. }
  assert (E1 : activateGenerateRender Pointer w
               = setInFlight
                   (fun rs => rs ++ [mkRequest dataUrl
                      "A high quality studio rendering of this assembly."
                      (if WatermarkConfig.enabled (watermark w)
                       then WatermarkConfig.text (watermark w) else "")])
                   (setIsRendering true w)).
  { unfold activateGenerateRender, handleGenerateRender. simpl.
    now rewrite Hmodal, Hc, Hd. }
  rewrite E1.
  change (List.length (inFlight w))
    with (List.length (inFlight (setIsRendering true w))).
  rewrite !settle_last.
  split; [repeat split|].
  split.
  { unfold closeButtonsShown, modalShown, downloadHref, watermarkPreviewShown.
    simpl. rewrite Ht. simpl. rewrite andb_false_r. repeat split. }
  split.
  { unfold closeButtonsShown, modalShown. simpl. rewrite Ht. simpl.
    unfold closeModal, resumeGenerateRender, setRenderResult, setIsRendering.
    simpl. rewrite <- Hr, <- Hres. apply world_eta. }
  split.
  { unfold resumeGenerateRender, setIsRendering, console_error, alert. simpl.
    now rewrite <- Hr. }
  unfold modalShown. simpl. now rewrite Hres.
Qed.

Lemma render_cycle_round_trip_witness :
  let w := mountCanvas (mkCanvas (Normal "data:image/png;base64,iVBORw0KGgo="))
             initialWorld in
  let w1 := step false (RenderActivate Pointer) w in
  let w2 := step false (RenderSettle 0 (Fulfilled "data:image/png;base64,AAAA")) w1 in
  step false ModalClose w2 = w.
Proof.
  cbv zeta.
  refine (proj1 (proj2 (proj2
    (render_cycle_round_trip false
       (mountCanvas (mkCanvas (Normal "data:image/png;base64,iVBORw0KGgo="))
          initialWorld)
       (mkCanvas (Normal "data:image/png;base64,iVBORw0KGgo="))
       "data:image/png;base64,iVBORw0KGgo="
       "data:image/png;base64,AAAA" "" _ _ _ _ _)))); reflexivity.
Defined.

(* ------------------------------------------------------------------ *)
(** ** The distance of a measurement, in binary64 *)

Section SquareRootSign.
Import SpecFloat.
Variables prec emax : Z.

Lemma binary_round_aux_not_negative m e l :
  SFltb (binary_round_aux prec emax false m e l) (S754_zero false) = false.
Proof.
  unfold binary_round_aux.
  destruct (shr_fexp prec emax m e l) as [mrs e'].
  destruct (shr_fexp prec emax _ e' loc_Exact) as [mrs2 e2].
  destruct (shr_m mrs2); try reflexivity.
  destruct (Z.leb e2 (emax - prec)); reflexivity.
Qed.

Lemma SFsqrt_not_negative u :
  SFltb (SFsqrt prec emax u) (S754_zero false) = false.
Proof.
  destruct u as [s|[]| |[] m e]; try reflexivity.
  unfold SFsqrt. destruct (SFsqrt_core_binary prec emax (Z.pos m) e) as [[mz ez] lz].
  apply binary_round_aux_not_negative.
Qed.

Lemma SFsub_self u :
  SFeqb u u = true ->
  SFeqb (SFabs u) (S754_infinity false) = false ->
  SFsub prec emax u u = S754_zero false.
Proof.
  destruct u as [[]|s| |s m e]; try reflexivity; try discriminate.
  intros _ _. unfold SFsub. now rewrite Z.sub_diag.
Qed.
End SquareRootSign.

Lemma sqrt_not_negative (x : float) : (PrimFloat.sqrt x <? 0)%float = false.
Proof.
  rewrite ltb_spec, sqrt_spec. apply SFsqrt_not_negative.
Qed.

Lemma sub_self (x : float) : is_finite x = true -> (x - x)%float = 0%float.
Proof.
  unfold is_finite, is_nan, is_infinity. intros H.
  apply negb_true_iff, orb_false_elim in H as [Hn Hi].
  apply negb_false_iff in Hn. rewrite FloatAxioms.eqb_spec in Hn, Hi.
  rewrite abs_spec in Hi.
  apply Prim2SF_inj. rewrite FloatAxioms.sub_spec.
  now apply SFsub_self.
Qed.

(** X18.  The distance [handleCanvasClick] stores in a measurement is never
    negative (it is zero, positive or not a number), and it is exactly 0 when
    the two clicks hit the same point and that point's coordinates are
    finite. *)
Theorem measured_distance_not_negative (c1 c2 : Z * Vector3.t) :
  (Measurement.distance (measurementOf (c1, c2)) <? 0)%float = false
  /\ (snd c1 = snd c2 ->
      is_finite (Vector3.x (snd c1)) = true ->
      is_finite (Vector3.y (snd c1)) = true ->
      is_finite (Vector3.z (snd c1)) = true ->
      Measurement.distance (measurementOf (c1, c2)) = 0%float).
Proof.
  unfold measurementOf. simpl. split.
  - apply sqrt_not_negative.
  - intros <- Hx Hy Hz.
    unfold Vector3.distanceTo, Vector3.distanceToSquared. cbv zeta.
    rewrite (sub_self _ Hx), (sub_self _ Hy), (sub_self _ Hz). reflexivity.
Qed.

(* ------------------------------------------------------------------ *)
(** ** The watermark controls *)

Lemma setWatermark_same (w : World) : setWatermark (watermark w) w = w.
Proof. apply world_eta. Qed.

(** X19.  While the watermark is switched off its text box takes no edit;
    switching it off and back on leaves text and opacity as they were; and
    the text sent with a render request is the watermark text when the
    watermark is on and the empty text when it is off. *)
Theorem watermark_controls
  (domAfterStop : bool) (w : World) (value : string)
  (canvas : HTMLCanvasElement) (dataUrl : string) :
  WatermarkConfig.enabled (watermark w) = true ->
  canvasRef w = Some canvas ->
  toDataURL canvas = Normal dataUrl ->
  let off := step domAfterStop (WatermarkEnabledChange false) w in
  step domAfterStop (WatermarkTextChange value) off = off
  /\ step domAfterStop (WatermarkEnabledChange true) off = w
  /\ WatermarkConfig.text (watermark (step domAfterStop (WatermarkTextChange value) w))
     = value
  /\ snd (handleGenerateRender w w)
     = Some (mkRequest dataUrl "A high quality studio rendering of this assembly."
               (WatermarkConfig.text (watermark w)))
  /\ snd (handleGenerateRender off off)
     = Some (mkRequest dataUrl "A high quality studio rendering of this assembly." "").
Proof.
  intros He Hc Hd. cbv zeta. cbn [step].
  split; [reflexivity|].
  split.
  { unfold onWatermarkEnabledChange, setWatermark. simpl.
    rewrite <- He. destruct w as [? ? ? ? ? [t en op] ? ? ? ? ? ? ? ? ?].
    reflexivity. }
  split.
  { unfold onWatermarkTextChange. rewrite He. reflexivity. }
  unfold handleGenerateRender. simpl. rewrite Hc, Hd, He. split; reflexivity.
Qed.

Lemma watermark_controls_witness :
  let w := mountCanvas (mkCanvas (Normal "data:image/png;base64,iVBORw0KGgo="))
             initialWorld in
  let off := step false (WatermarkEnabledChange false) w in
  step false (WatermarkEnabledChange true)
    (step false (WatermarkTextChange "FINAL") off) = w.
Proof.
  cbv zeta.
  pose proof (watermark_controls false
                (mountCanvas (mkCanvas (Normal "data:image/png;base64,iVBORw0KGgo="))
                   initialWorld)
                "FINAL" (mkCanvas (Normal "data:image/png;base64,iVBORw0KGgo="))
                "data:image/png;base64,iVBORw0KGgo=" eq_refl eq_refl eq_refl)
    as [H1 [H2 _]].
  cbv zeta in H1, H2. rewrite H1. exact H2.
Defined.

(* ------------------------------------------------------------------ *)
(** ** A fresh object, a shared id, and clearing the measurements *)

Lemma handleAddObject_gizmo (e : Entropy) (objData : PartialSceneObject.t) (w : World) :
  gizmoRendered (uniqueId e) (handleAddObject e objData w) = true.
Proof.
  unfold gizmoRendered, showsTransformControls. simpl.
  rewrite String.eqb_refl, existsb_app. simpl.
  rewrite String.eqb_refl. simpl. now rewrite orb_true_r.
Qed.

Lemma handleAddObject_gizmo_count
  (e : Entropy) (objData : PartialSceneObject.t) (w : World) :
  List.length (filter isGizmo (stageChildren (handleAddObject e objData w)))
  = S (List.length
         (filter (fun obj => String.eqb (SceneObject.id obj) (uniqueId e))
            (objects w))).
Proof.
  rewrite stage_gizmo_count. simpl. rewrite filter_app, length_app. simpl.
  unfold isSelectedIn at 2. simpl. rewrite String.eqb_refl. simpl.
  rewrite Nat.add_1_r. f_equal. f_equal.
  apply filter_ext. intros o. unfold isSelectedIn, showsTransformControls.
  simpl. now rewrite !andb_true_r.
Qed.

(** X20.  Right after every [handleAddObject] call the new object can be
    manipulated: it is selected, the mode is [MOVE], the scene holds its
    gizmo, in translate mode, and every gizmo of the scene belongs to an
    entry with the new id.  The scene holds one gizmo for the new object and
    one more for each older entry that carries the same id; so if the id was
    not yet in the store, that gizmo is the only one in the scene. *)
Theorem fresh_object_has_the_gizmo
  (e : Entropy) (objData : PartialSceneObject.t) (w : World) :
  let w' := handleAddObject e objData w in
  selectedId w' = Some (uniqueId e)
  /\ mode w' = MOVE
  /\ gizmoRendered (uniqueId e) w' = true
  /\ transformControlsMode (mode w') = translate
  /\ (forall objId, gizmoRendered objId w' = true -> objId = uniqueId e)
  /\ List.length (filter isGizmo (stageChildren w'))
     = S (List.length
            (filter (fun obj => String.eqb (SceneObject.id obj) (uniqueId e))
               (objects w)))
  /\ (~ In (uniqueId e) (ids (objects w)) ->
      List.length (filter isGizmo (stageChildren w')) = 1).
Proof.
  cbv zeta.
  split; [reflexivity|]. split; [reflexivity|].
  split; [apply handleAddObject_gizmo|]. split; [reflexivity|].
  split.
  { intros objId H. unfold gizmoRendered, showsTransformControls in H.
    simpl in H. apply andb_prop in H as [_ H].
    rewrite !andb_true_r in H. now apply String.eqb_eq in H. }
  split; [apply handleAddObject_gizmo_count|].
  intros Hfresh. rewrite handleAddObject_gizmo_count. f_equal.
  apply length_zero_iff_nil.
  destruct (filter _ (objects w)) as [|o r] eqn:Ef; [reflexivity|].
  exfalso. apply Hfresh.
  assert (Hin : In o (filter (fun obj => String.eqb (SceneObject.id obj) (uniqueId e))
                        (objects w))) by (rewrite Ef; now left).
  apply filter_In in Hin as [Hin Hid]. apply String.eqb_eq in Hid.
  rewrite <- Hid. unfold ids. now apply in_map.
Qed.

Lemma fresh_object_has_the_gizmo_witness :
  let e := mkEntropy 1700000000000 "0.4fzyo82mvyr" in
  let w := handleAddObject e boxPrimitive initialWorld in
  let e' := mkEntropy 1700000000001 "0.k3x9q0p1zzab" in
  List.length (filter isGizmo (stageChildren (handleAddObject e' boxPrimitive w))) = 1
  /\ List.length (filter isGizmo (stageChildren (handleAddObject e boxPrimitive w))) = 2.
Proof.
  cbv zeta. split.
  - refine (proj2 (proj2 (proj2 (proj2 (proj2 (proj2
      (fresh_object_has_the_gizmo (mkEntropy 1700000000001 "0.k3x9q0p1zzab")
         boxPrimitive _)))))) _).
    simpl. intros [H|[]]. discriminate H.
  - exact (proj1 (proj2 (proj2 (proj2 (proj2 (proj2
      (fresh_object_has_the_gizmo (mkEntropy 1700000000000 "0.4fzyo82mvyr")
         boxPrimitive
         (handleAddObject (mkEntropy 1700000000000 "0.4fzyo82mvyr")
            boxPrimitive initialWorld)))))))).
Defined.

(** X21.  When two entries of the store share an id, the store cannot tell
    them apart: a gizmo change for that id gives both entries the same
    position, rotation and scale, and an update of one field gives both the
    same value in that field. *)
Theorem shared_id_entries_move_together
  (w : World) (objId : string) (k1 k2 : nat) (o1 o2 : SceneObject.t) :
  nth_error (objects w) k1 = Some o1 ->
  nth_error (objects w) k2 = Some o2 ->
  SceneObject.id o1 = objId ->
  SceneObject.id o2 = objId ->
  (forall m, exists o1' o2',
      nth_error (objects (onObjectChange (Some m) objId w)) k1 = Some o1'
      /\ nth_error (objects (onObjectChange (Some m) objId w)) k2 = Some o2'
      /\ SceneObject.position o1' = SceneObject.position o2'
      /\ SceneObject.rotation o1' = SceneObject.rotation o2'
      /\ SceneObject.scale o1' = SceneObject.scale o2')
  /\ (forall f v, exists o1' o2',
        nth_error (objects (handleUpdateObject objId (single f v) w)) k1 = Some o1'
        /\ nth_error (objects (handleUpdateObject objId (single f v) w)) k2 = Some o2'
        /\ get f o1' = get f o2').
Proof.
  intros H1 H2 E1 E2. split.
  - intros m. simpl. rewrite !nth_error_map, H1, H2. simpl.
    rewrite E1, E2, String.eqb_refl. eexists. eexists.
    repeat split.
  - intros f v. simpl. rewrite !nth_error_map, H1, H2. simpl.
    rewrite E1, E2, String.eqb_refl. eexists. eexists.
    split; [reflexivity|]. split; [reflexivity|].
    destruct f; reflexivity.
Qed.

Lemma shared_id_entries_move_together_witness :
  let e := mkEntropy 1700000000000 "0.4fzyo82mvyr" in
  let w := handleAddObject e PartialSceneObject.empty
             (handleAddObject e boxPrimitive initialWorld) in
  let m := mkMesh (Vector3.mk 1 2 3)%float (Vector3.mk 0 0 0)%float
             (Vector3.mk 2 2 2)%float in
  ids (objects w) = ["1700000000000-4fzyo82mv"; "1700000000000-4fzyo82mv"]
  /\ exists o1' o2',
       nth_error (objects (onObjectChange (Some m) "1700000000000-4fzyo82mv" w)) 0
       = Some o1'
       /\ nth_error (objects (onObjectChange (Some m) "1700000000000-4fzyo82mv" w)) 1
          = Some o2'
       /\ SceneObject.position o1' = SceneObject.position o2'.
Proof.
  cbv zeta. split; [reflexivity|].
  destruct (proj1 (shared_id_entries_move_together
             (handleAddObject (mkEntropy 1700000000000 "0.4fzyo82mvyr")
                PartialSceneObject.empty
                (handleAddObject (mkEntropy 1700000000000 "0.4fzyo82mvyr")
                   boxPrimitive initialWorld))
             "1700000000000-4fzyo82mv" 0 1 _ _ eq_refl eq_refl eq_refl eq_refl)
             (mkMesh (Vector3.mk 1 2 3)%float (Vector3.mk 0 0 0)%float
                (Vector3.mk 2 2 2)%float))
    as (o1' & o2' & H1 & H2 & Hp & _).
  exists o1', o2'. split; [exact H1|]. split; [exact H2|exact Hp].
Defined.

(** X22.  The "Clear All" button leaves the measurement store empty whatever
    its size was and changes nothing else; afterwards the measurement list
    (and with it the button) is no longer shown and no measurement line is in
    the scene.  The button exists only while the store is not empty, so the
    event always ends with an empty store. *)
Theorem clear_all_empties_the_measurements (domAfterStop : bool) (w : World) :
  let w' := step domAfterStop MeasurementsClear w in
  measurements w' = []
  /\ w' = setMeasurements (fun _ => []) w
  /\ measurementListShown w' = false
  /\ MeasurementLines (measurements w') = []
  /\ measurements (clearAll w) = [].
Proof.
  cbv zeta. cbn [step]. unfold measurementListShown.
  destruct (measurements w) as [|m ms] eqn:E; simpl.
  - rewrite E. repeat split. unfold setMeasurements. rewrite <- E.
    symmetry. apply world_eta.
  - repeat split.
Qed.

(* ------------------------------------------------------------------ *)
(** ** The measurement scenario, through the click wiring *)

(** C1.  The scenario of two measurement clicks at (0,0,0) and (3,4,0), as
    the viewport delivers it.  Two unit boxes stand with a face through
    (0,0,0) and through (3,4,0), and the mode is measure.  Each click is
    offered to the [onClick] of the box it hits and to nothing else; that
    handler stops the propagation and does nothing in measure mode.  So after
    the two clicks the state is what it was: no start point is recorded and
    no measurement is made, although [handleCanvasClick], called with the
    same two points, would add one measurement of distance 5.  In general no
    click, in any state, is offered to either of the two handlers that call
    [handleCanvasClick], and in measure mode no sequence of clicks changes
    the measurement store or the pending slot. *)
Theorem measure_clicks_never_reach_handleCanvasClick :
  let w := setMode MEASURE
             (handleAddObject (mkEntropy 1700000000001 "0.k3x9q0p1zzab")
                (boxAt (3, 4, -0.5)%float)
                (handleAddObject (mkEntropy 1700000000000 "0.4fzyo82mvyr")
                   (boxAt (0, 0, -0.5)%float) initialWorld)) in
  let p := (Vector3.mk 0 0 0)%float in
  let q := (Vector3.mk 3 4 0)%float in
  let c1 := mkClick [mkHit [0; 0] p] 1700000000100 in
  let c2 := mkClick [mkHit [0; 1] q] 1700000000200 in
  mode w = MEASURE
  /\ measuringStart w = None
  /\ measurements w = []
  /\ handlersOfHit (scene w) (mkHit [0; 0] p)
     = [(SceneItemClick "1700000000000-4fzyo82mv", mkEvent p)]
  /\ handlersOfHit (scene w) (mkHit [0; 1] q)
     = [(SceneItemClick "1700000000001-k3x9q0p1z", mkEvent q)]
  /\ (forall domAfterStop,
        measuringStart (click domAfterStop c1 w) = None
        /\ clicks domAfterStop [c1; c2] w = w
        /\ measurements (clicks domAfterStop [c1; c2] w) = []
        /\ measuringStart (clicks domAfterStop [c1; c2] w) = None)
  /\ measurements (twoCanvasClicks 1700000000100 1700000000200 p q w)
     = [Measurement.mk "1700000000200" (0, 0, 0)%float (3, 4, 0)%float 5%float]
  /\ (forall w0 c h e,
        In (h, e) (flat_map (handlersOfHit (scene w0)) (hits c)) ->
        h <> InvisibleMeshClick /\ h <> MeasureGroupClick)
  /\ (forall domAfterStop cs w0,
        mode w0 = MEASURE ->
        measurements (clicks domAfterStop cs w0) = measurements w0
        /\ measuringStart (clicks domAfterStop cs w0) = measuringStart w0).
Proof.
  cbv zeta.
  do 5 (split; [vm_compute; reflexivity|]).
  split.
  { intros []; repeat match goal with |- _ /\ _ => split end;
      vm_compute; reflexivity. }
  split; [vm_compute; reflexivity|].
  split.
  { intros w0 c h e Hin.
    destruct (reachable_handlers_click w0 c h e Hin) as [objId ->].
    split; discriminate. }
  intros dom cs w0 Hm.
  assert (E : clicks dom cs w0 = w0).
  { unfold clicks. induction cs as [|c cs IH]; simpl; [reflexivity|].
    rewrite (click_measure_noop _ _ _ Hm). exact IH. }
  rewrite E. split; reflexivity.
Qed.
